(** * simple_task_mcp: task parsing and completion-state reconciliation

    A shallow embedding of [simple_task_mcp.py].  Python [str] values are
    sequences of Unicode code points, the module-level [STATE] dictionary is
    a record of optional fields, Python sets and dictionaries are [gset] and
    [gmap], and the tools are computations in a small state-and-exception
    monad over the process's view of the world (task file, rule file,
    in-memory state, state file).

    Modelling conventions:
    - a text file is what [exists()] and [read_text(encoding="utf-8")] make
      of it: absent, unreadable, or its decoded text;
    - the state file holds the state last passed to [save_state]; the JSON
      encoding (sets written as lists) is left abstract and writing is
      assumed to succeed;
    - the text a tool returns is represented by a constructor carrying the
      values the message is formatted from;
    - [hashlib.md5] is MD5 as RFC 1321 defines it. *)

From Stdlib Require Import ZArith NArith List Ascii String Lia.
From stdpp Require Import gmap strings list fin_maps.

Set Default Proof Using "Type".

(** ** Python text: [str] as a list of code points *)

Module Py.

(** A Python [str]: the list of its code points. *)
Definition str := list N.

(** An ASCII literal as a [str]. *)
Definition lit (s : string) : str :=
  map N_of_ascii (list_ascii_of_string s).

Definition NL : N := 10.
Definition HASH : N := 35.

(** [str.isspace] on one code point, as CPython defines whitespace. *)
Definition isspace (c : N) : bool :=
  ((9 <=? c) && (c <=? 13) || (28 <=? c) && (c <=? 32)
   || (c =? 133) || (c =? 160) || (c =? 5760)
   || (8192 <=? c) && (c <=? 8202)
   || (c =? 8232) || (c =? 8233) || (c =? 8239) || (c =? 8287)
   || (c =? 12288))%N.

(** [s.lstrip()] *)
Fixpoint lstrip (s : str) : str :=
  match s with
  | c :: s' => if isspace c then lstrip s' else s
  | [] => []
  end.

(** [s.rstrip()]: drops the longest all-whitespace suffix. *)
Fixpoint rstrip (s : str) : str :=
  match s with
  | [] => []
  | c :: s' =>
      match rstrip s' with
      | [] => if isspace c then [] else [c]
      | r => c :: r
      end
  end.

(** [s.strip()] *)
Definition strip (s : str) : str := lstrip (rstrip s).

(** [s.split('\n')]: the pieces between line feeds; never empty. *)
Fixpoint split_nl (s : str) : list str :=
  match s with
  | [] => [[]]
  | c :: s' =>
      if (c =? NL)%N then [] :: split_nl s'
      else match split_nl s' with
           | l :: ls => (c :: l) :: ls
           | [] => [[c]]
           end
  end.

(** ['\n'.join(ls)] *)
Fixpoint join_nl (ls : list str) : str :=
  match ls with
  | [] => []
  | [l] => l
  | l :: ls' => l ++ NL :: join_nl ls'
  end.

(** [s.startswith('#')] *)
Definition startswith_hash (s : str) : bool :=
  match s with
  | c :: _ => (c =? HASH)%N
  | [] => false
  end.

(** [s == ""] *)
Definition is_empty (s : str) : bool :=
  match s with [] => true | _ => false end.

(** [task.split('\n')[0].strip()], the first line shown to the user. *)
Definition first_line (s : str) : str :=
  match split_nl s with
  | l :: _ => strip l
  | [] => []
  end.

(** [s.encode('utf-8')] for text that came out of a UTF-8 decoder. *)
Definition utf8_char (c : N) : list N :=
  (if c <? 128 then [c]
   else if c <? 2048 then [192 + c / 64; 128 + c mod 64]
   else if c <? 65536 then
     [224 + c / 4096; 128 + (c / 64) mod 64; 128 + c mod 64]
   else
     [240 + (c / 262144) mod 8; 128 + (c / 4096) mod 64;
      128 + (c / 64) mod 64; 128 + c mod 64])%N.

Definition encode_utf8 (s : str) : list N := flat_map utf8_char s.

(** A code point that UTF-8 has no encoding for: a surrogate,
    U+D800 to U+DFFF.  A [str] built in the program can hold one; text
    decoded from a file cannot. *)
Definition is_surrogate (c : N) : bool := ((55296 <=? c) && (c <=? 57343))%N.

(** The exception of [s.encode('utf-8')]. *)
Inductive encode_error : Set := UnicodeEncodeError.

(** [s.encode('utf-8')] on any [str]: it raises on the first surrogate. *)
Definition encode (s : str) : encode_error + list N :=
  if existsb is_surrogate s then inl UnicodeEncodeError
  else inr (encode_utf8 s).

End Py.

(** ** MD5 (RFC 1321), the digest behind [hashlib.md5] *)

Module MD5.
Local Open Scope N_scope.

Definition W : N := 4294967296.

Definition add32 (x y : N) : N := (x + y) mod W.
Definition not32 (x : N) : N := N.lxor (x mod W) 4294967295.
Definition rotl32 (x s : N) : N :=
  N.lor (N.shiftl x s mod W) (N.shiftr (x mod W) (32 - s)).

Definition F (x y z : N) := N.lor (N.land x y) (N.land (not32 x) z).
Definition G (x y z : N) := N.lor (N.land x z) (N.land y (not32 z)).
Definition H (x y z : N) := N.lxor (N.lxor x y) z.
Definition I (x y z : N) := N.lxor y (N.lor x (not32 z)).

(** [T[i] = floor(2^32 * abs(sin(i + 1)))] *)
Definition T : list N :=
  [ 0xd76aa478; 0xe8c7b756; 0x242070db; 0xc1bdceee;
    0xf57c0faf; 0x4787c62a; 0xa8304613; 0xfd469501;
    0x698098d8; 0x8b44f7af; 0xffff5bb1; 0x895cd7be;
    0x6b901122; 0xfd987193; 0xa679438e; 0x49b40821;
    0xf61e2562; 0xc040b340; 0x265e5a51; 0xe9b6c7aa;
    0xd62f105d; 0x02441453; 0xd8a1e681; 0xe7d3fbc8;
    0x21e1cde6; 0xc33707d6; 0xf4d50d87; 0x455a14ed;
    0xa9e3e905; 0xfcefa3f8; 0x676f02d9; 0x8d2a4c8a;
    0xfffa3942; 0x8771f681; 0x6d9d6122; 0xfde5380c;
    0xa4beea44; 0x4bdecfa9; 0xf6bb4b60; 0xbebfbc70;
    0x289b7ec6; 0xeaa127fa; 0xd4ef3085; 0x04881d05;
    0xd9d4d039; 0xe6db99e5; 0x1fa27cf8; 0xc4ac5665;
    0xf4292244; 0x432aff97; 0xab9423a7; 0xfc93a039;
    0x655b59c3; 0x8f0ccc92; 0xffeff47d; 0x85845dd1;
    0x6fa87e4f; 0xfe2ce6e0; 0xa3014314; 0x4e0811a1;
    0xf7537e82; 0xbd3af235; 0x2ad7d2bb; 0xeb86d391 ].

(** Per-round left-rotation amounts. *)
Definition R : list N :=
  [ 7; 12; 17; 22; 7; 12; 17; 22; 7; 12; 17; 22; 7; 12; 17; 22;
    5; 9; 14; 20; 5; 9; 14; 20; 5; 9; 14; 20; 5; 9; 14; 20;
    4; 11; 16; 23; 4; 11; 16; 23; 4; 11; 16; 23; 4; 11; 16; 23;
    6; 10; 15; 21; 6; 10; 15; 21; 6; 10; 15; 21; 6; 10; 15; 21 ].

Definition regs : Type := N * N * N * N.

Definition init : regs :=
  (0x67452301, 0xefcdab89, 0x98badcfe, 0x10325476).

(** One of the 64 operations on the 16-word block [M]. *)
Definition op (M : list N) (st : regs) (i : nat) : regs :=
  let '(a, b, c, d) := st in
  let j := N.of_nat i in
  let '(f, g) :=
    if j <? 16 then (F b c d, j)
    else if j <? 32 then (G b c d, (5 * j + 1) mod 16)
    else if j <? 48 then (H b c d, (3 * j + 5) mod 16)
    else (I b c d, (7 * j) mod 16) in
  let x := add32 (add32 (add32 a f) (nth i T 0)) (nth (N.to_nat g) M 0) in
  (d, add32 b (rotl32 x (nth i R 0)), b, c).

(** Four bytes, least significant first, as one word. *)
Definition word_of_bytes (bs : list N) : N :=
  fold_right (fun b acc => b + 256 * acc) 0 bs.

Fixpoint words (n : nat) (bs : list N) : list N :=
  match n with
  | O => []
  | S n' => word_of_bytes (firstn 4 bs) :: words n' (skipn 4 bs)
  end.

(** Absorb one 64-byte block. *)
Definition compress (st : regs) (block : list N) : regs :=
  let '(a0, b0, c0, d0) := st in
  let '(a, b, c, d) := fold_left (op (words 16 block)) (seq 0 64) st in
  (add32 a0 a, add32 b0 b, add32 c0 c, add32 d0 d).

(** The [n] low bytes of [x], least significant first. *)
Fixpoint le_bytes (n : nat) (x : N) : list N :=
  match n with
  | O => []
  | S n' => x mod 256 :: le_bytes n' (x / 256)
  end.

(** The message followed by [0x80], zeros up to 56 mod 64, and the bit
    length on 8 bytes. *)
Definition pad (msg : list N) : list N :=
  let len := N.of_nat (List.length msg) in
  let zeros := (55 + 64 - len mod 64) mod 64 in
  msg ++ 128 :: repeat 0 (N.to_nat zeros) ++ le_bytes 8 (8 * len).

Fixpoint absorb (n : nat) (st : regs) (bs : list N) : regs :=
  match n with
  | O => st
  | S n' => absorb n' (compress st (firstn 64 bs)) (skipn 64 bs)
  end.

(** The 16 digest bytes. *)
Definition digest (msg : list N) : list N :=
  let p := pad msg in
  let '(a, b, c, d) := absorb (List.length p / 64) init p in
  le_bytes 4 a ++ le_bytes 4 b ++ le_bytes 4 c ++ le_bytes 4 d.

Definition hex_digit (n : N) : ascii :=
  ascii_of_N (if n mod 16 <? 10 then 48 + n mod 16 else 87 + n mod 16).

Fixpoint hex (bs : list N) : string :=
  match bs with
  | [] => EmptyString
  | b :: bs' => String (hex_digit (b / 16)) (String (hex_digit b) (hex bs'))
  end.

(** [hashlib.md5(msg).hexdigest()] *)
Definition hexdigest (msg : list N) : string := hex (digest msg).

End MD5.

(** ** The process state and its effects *)

(** Exceptions the modelled code raises. [ReadError] stands for whatever
    [read_text] raises on a file that exists but cannot be read or decoded. *)
Inductive exn := FileNotFoundError | ValueError | IndexError | ReadError.

(** A text file as [exists()] and [read_text(encoding="utf-8")] see it. *)
Inductive file :=
  | Absent
  | Unreadable
  | Text (raw : Py.str).

(** The [STATE] dictionary: a key that is missing is [None].  Keys of
    [task_hashes] are positions. *)
Record state := State {
  index : option Z;
  completed_tasks : option (gset Z);
  completed_hashes : option (gset string);
  task_hashes : option (gmap Z string)
}.

(** What [load_state] returns when there is no usable state file:
    [{"index": 0}]. *)
Definition default_state : state := State (Some 0%Z) None None None.

Definition set_index (v : Z) (s : state) : state :=
  State (Some v) (completed_tasks s) (completed_hashes s) (task_hashes s).
Definition set_completed_tasks (v : gset Z) (s : state) : state :=
  State (index s) (Some v) (completed_hashes s) (task_hashes s).
Definition set_completed_hashes (v : gset string) (s : state) : state :=
  State (index s) (completed_tasks s) (Some v) (task_hashes s).
Definition set_task_hashes (v : gmap Z string) (s : state) : state :=
  State (index s) (completed_tasks s) (completed_hashes s) (Some v).

(** [s.get("index", 0)], [s.get("completed_tasks", set())], ... *)
Definition get_index (s : state) : Z := default 0%Z (index s).
Definition get_completed_tasks (s : state) : gset Z :=
  default ∅ (completed_tasks s).
Definition get_completed_hashes (s : state) : gset string :=
  default ∅ (completed_hashes s).
Definition get_task_hashes (s : state) : gmap Z string :=
  default ∅ (task_hashes s).

(** The world of one server process: the task file, the rule file, the
    global [STATE], and the state file ([None] until something is saved;
    afterwards the state last written, the JSON encoding left abstract). *)
Record world := World {
  TASKS_PATH : file;
  RULES_PATH : file;
  STATE : state;
  STATE_PATH : option state
}.

(** Computations that read and mutate the world and may raise; what was
    mutated before an exception stays mutated. *)
Definition M (A : Type) : Type := world -> (exn + A) * world.

Definition ret {A} (a : A) : M A := fun w => (inr a, w).
Definition raise {A} (e : exn) : M A := fun w => (inl e, w).
Definition bind {A B} (m : M A) (k : A -> M B) : M B :=
  fun w =>
    match m w with
    | (inr a, w') => k a w'
    | (inl e, w') => (inl e, w')
    end.

Notation "x <- m ;; k" := (bind m (fun x => k))
  (at level 100, m at next level, right associativity).
Notation "m ;;; k" := (bind m (fun _ => k))
  (at level 100, right associativity).

Definition gets {A} (f : world -> A) : M A := fun w => (inr (f w), w).
Definition update_STATE (f : state -> state) : M unit :=
  fun w => (inr tt, World (TASKS_PATH w) (RULES_PATH w) (f (STATE w)) (STATE_PATH w)).
Definition put_STATE (s : state) : M unit := update_STATE (fun _ => s).

(** [try: m except Exception as e: h e] *)
Definition try_except {A} (m : M A) (h : exn -> M A) : M A :=
  fun w =>
    match m w with
    | (inr a, w') => (inr a, w')
    | (inl e, w') => h e w'
    end.

(** The world a computation leaves, and the value it returns. *)
Definition exec {A} (m : M A) (w : world) : world := snd (m w).
Definition eval {A} (m : M A) (w : world) : exn + A := fst (m w).

Definition len {A} (l : list A) : Z := Z.of_nat (List.length l).

(** [l[i]] on a Python list, negative positions counting from the end. *)
Definition item {A} (l : list A) (i : Z) : M A :=
  let j := (if i <? 0 then i + len l else i)%Z in
  if (j <? 0)%Z then raise IndexError
  else match l !! Z.to_nat j with
       | Some a => ret a
       | None => raise IndexError
       end.

(** [range(a, b)] *)
Definition range (a b : Z) : list Z :=
  map (fun k => (a + Z.of_nat k)%Z) (seq 0 (Z.to_nat (b - a))).

(** [for x in xs: acc = body acc x] *)
Fixpoint for_each {A X} (xs : list X) (body : A -> X -> M A) (acc : A) : M A :=
  match xs with
  | [] => ret acc
  | x :: xs' => acc' <- body acc x ;; for_each xs' body acc'
  end.

(** ** State store *)

(** [save_state]: the set-to-list conversion is part of the encoding. *)
Definition save_state (s : state) : M unit :=
  fun w => (inr tt, World (TASKS_PATH w) (RULES_PATH w) (STATE w) (Some s)).

(** ** Hasher *)

Fixpoint prefix_str (n : nat) (s : string) : string :=
  match n, s with
  | S n', String c s' => String c (prefix_str n' s')
  | _, _ => EmptyString
  end.

(** [hashlib.md5(task_content.encode('utf-8')).hexdigest()[:8]] *)
Definition generate_task_hash (task_content : Py.str) : string :=
  prefix_str 8 (MD5.hexdigest (Py.encode_utf8 task_content)).

(** The same function called on any [str], with the exception of its
    [encode]: [generate_task_hash] above is its value on text that encodes,
    which is all the text the tools read from the task file. *)
Definition generate_task_hash_exn (task_content : Py.str)
  : Py.encode_error + string :=
  match Py.encode task_content with
  | inl e => inl e
  | inr bytes => inr (prefix_str 8 (MD5.hexdigest bytes))
  end.

(** ** Parser *)

(** One iteration of the line loop of [load_tasks_raw], on
    [(tasks, current_task)]. *)
Definition raw_line (st : list Py.str * list Py.str) (line : Py.str)
  : list Py.str * list Py.str :=
  let '(tasks, current_task) := st in
  let line := Py.rstrip line in
  if Py.is_empty (Py.strip line) then
    match current_task with
    | _ :: _ => (tasks ++ [Py.strip (Py.join_nl current_task)], [])
    | [] => (tasks, current_task)
    end
  else (tasks, current_task ++ [line]).

(** The blocks of a text: the loop, then the trailing block. *)
Definition blocks (raw : Py.str) : list Py.str :=
  let '(tasks, current_task) := fold_left raw_line (Py.split_nl raw) ([], []) in
  match current_task with
  | _ :: _ => tasks ++ [Py.strip (Py.join_nl current_task)]
  | [] => tasks
  end.

Definition load_tasks_raw : M (list Py.str) :=
  f <- gets TASKS_PATH ;;
  match f with
  | Absent => raise FileNotFoundError
  | Unreadable => raise ReadError
  | Text raw =>
      let tasks := blocks raw in
      match tasks with
      | [] => raise ValueError
      | _ => ret tasks
      end
  end.

(** One iteration of the line loop of [get_current_task_hashes], on
    [(task_hashes, current_task, task_index)]. *)
Definition hash_line (st : gmap Z string * list Py.str * Z) (line : Py.str)
  : gmap Z string * list Py.str * Z :=
  let '(task_hashes, current_task, task_index) := st in
  let line := Py.rstrip line in
  if Py.is_empty (Py.strip line) then
    match current_task with
    | _ :: _ =>
        let task_content := Py.strip (Py.join_nl current_task) in
        if negb (Py.startswith_hash task_content) then
          (<[task_index := generate_task_hash task_content]> task_hashes, [],
           (task_index + 1)%Z)
        else (task_hashes, [], task_index)
    | [] => (task_hashes, current_task, task_index)
    end
  else (task_hashes, current_task ++ [line], task_index).

(** The loop of [get_current_task_hashes] and its trailing block, on the
    text read from the task file. *)
Definition hashed_blocks (raw : Py.str) : gmap Z string :=
  let '(task_hashes, current_task, task_index) :=
    fold_left hash_line (Py.split_nl raw) (∅, [], 0%Z) in
  match current_task with
  | _ :: _ =>
      let task_content := Py.strip (Py.join_nl current_task) in
      if negb (Py.startswith_hash task_content) then
        <[task_index := generate_task_hash task_content]> task_hashes
      else task_hashes
  | [] => task_hashes
  end.

Definition get_current_task_hashes : M (gmap Z string) :=
  f <- gets TASKS_PATH ;;
  match f with
  | Absent => ret ∅
  | Unreadable => ret ∅
  | Text raw => ret (hashed_blocks raw)
  end.

(** The fixed preamble of [load_rules] (the [base_rules] literal). *)
Definition base_rules : Py.str :=
  [ 35; 32; 128680; 32; 44592; 48376; 32; 48372; 50504; 32; 44508; 52825;
    32; 40; 51088; 46041; 32; 51201; 50857; 41; 10; 35; 32; 45; 32; 46; 115;
    105; 109; 112; 108; 101; 32; 54260; 45908; 50752; 32; 44536; 32; 50504;
    51032; 32; 54028; 51068; 46308; 51012; 32; 51208; 45824; 32; 49325;
    51228; 54616; 51648; 32; 47560; 49464; 50836; 10; 35; 32; 45; 32; 115;
    105; 109; 112; 108; 101; 95; 116; 97; 115; 107; 46; 116; 120; 116; 44;
    32; 115; 105; 109; 112; 108; 101; 95; 115; 116; 97; 116; 101; 46; 106;
    115; 111; 110; 44; 32; 115; 105; 109; 112; 108; 101; 95; 114; 117; 108;
    101; 46; 116; 120; 116; 32; 46321; 51008; 32; 48372; 51316; 46104;
    50612; 50556; 32; 54633; 45768; 45796; 10; 35; 32; 45; 32; 54596; 50836;
    54616; 47732; 32; 45796; 47480; 32; 48169; 48277; 51012; 32; 49324;
    50857; 54616; 49464; 50836; 32; 40; 50696; 58; 32; 54028; 51068; 32;
    45236; 50857; 32; 49688; 51221; 44; 32; 49352; 32; 54028; 51068; 32;
    49373; 49457; 32; 46321; 41; 10; 35; 32; 45; 32; 54260; 45908; 32;
    44396; 51312; 47484; 32; 48320; 44221; 54616; 44144; 45208; 32; 49325;
    51228; 54616; 51648; 32; 47560; 49464; 50836; 10; 10 ]%N.

Definition load_rules : M Py.str :=
  f <- gets RULES_PATH ;;
  match f with
  | Text raw =>
      let user_rules := Py.strip raw in
      match user_rules with
      | _ :: _ => ret (base_rules ++ user_rules)
      | [] => ret base_rules
      end
  | Unreadable => ret base_rules
  | Absent => ret base_rules
  end.

Definition load_tasks : M (list Py.str) :=
  rules <- load_rules ;;
  raw_tasks <- load_tasks_raw ;;
  match rules with
  | _ :: _ => ret (map (fun task => rules ++ Py.NL :: Py.NL :: task) raw_tasks)
  | [] => ret raw_tasks
  end.

Definition clamp_index (idx n : Z) : Z :=
  if (idx <? 0)%Z then 0%Z
  else if (n <? idx)%Z then n
  else idx.

(** ** Reconciler *)

(** The body of the loop over [current_hashes.items()], on
    [(new_completed_tasks, new_completed_hashes)]. *)
Definition sync_item (known : gset string) (acc : gset Z * gset string)
    (kv : Z * string) : gset Z * gset string :=
  let '(task_num, task_hash) := kv in
  if decide (task_hash ∈ known)
  then ({[task_num]} ∪ acc.1, {[task_hash]} ∪ acc.2)
  else acc.

(** [for task_num, task_hash in current_hashes.items(): ...] from two empty
    sets. *)
Definition sync_loop (known : gset string) (current_hashes : gmap Z string)
  : gset Z * gset string :=
  fold_left (sync_item known) (map_to_list current_hashes) (∅, ∅).

Definition sync_state_with_tasks : M state :=
  current_state <- gets STATE ;;
  current_hashes <- get_current_task_hashes ;;
  let current_state :=
    match task_hashes current_state with
    | None => set_task_hashes ∅ current_state
    | Some _ => current_state
    end in
  let current_state :=
    match completed_hashes current_state with
    | None => set_completed_hashes ∅ current_state
    | Some _ => current_state
    end in
  let '(new_completed_tasks, new_completed_hashes) :=
    sync_loop (get_completed_hashes current_state) current_hashes in
  let current_state := set_completed_tasks new_completed_tasks current_state in
  let current_state := set_completed_hashes new_completed_hashes current_state in
  let current_state := set_task_hashes current_hashes current_state in
  let total_tasks := Z.of_nat (size current_hashes) in
  let current_state :=
    if (total_tasks <=? get_index current_state)%Z
    then set_index total_tasks current_state
    else current_state in
  save_state current_state ;;;
  ret current_state.

(** A task row of the [sync_tasks] report:
    position, completed?, first line, recorded hash. *)
Definition sync_row : Type := Z * bool * Py.str * option string.

Inductive sync_msg :=
  | Synced (total_tasks completed_count current_index : Z) (rows : list sync_row)
  | SyncFailed (e : exn).

Definition is_comment (task : Py.str) : bool :=
  Py.startswith_hash (Py.strip task).

Definition sync_tasks : M sync_msg :=
  try_except
    (s <- sync_state_with_tasks ;;
     put_STATE s ;;;
     current_tasks <- load_tasks_raw ;;
     st <- gets STATE ;;
     let total_tasks := len (List.filter (fun t => negb (is_comment t)) current_tasks) in
     let completed_count := Z.of_nat (size (get_completed_tasks st)) in
     let current_index := get_index st in
     let rows :=
       omap (fun '(i, task) =>
               if negb (is_comment task) then
                 Some (Z.of_nat i,
                       bool_decide (Z.of_nat i ∈ get_completed_tasks st),
                       Py.first_line task,
                       get_task_hashes st !! Z.of_nat i)
               else None)
            (imap pair current_tasks) in
     ret (Synced total_tasks completed_count current_index rows))
    (fun e => ret (SyncFailed e)).

(** ** Completion tracker *)

(** [if key not in STATE: STATE[key] = set()] (or [{}]) *)
Definition with_completed_tasks (s : state) : state :=
  match completed_tasks s with None => set_completed_tasks ∅ s | Some _ => s end.
Definition ensure_completed_tasks : M unit := update_STATE with_completed_tasks.
Definition ensure_completed_hashes : M unit :=
  update_STATE (fun s =>
    match completed_hashes s with None => set_completed_hashes ∅ s | Some _ => s end).
Definition ensure_task_hashes : M unit :=
  update_STATE (fun s =>
    match task_hashes s with None => set_task_hashes ∅ s | Some _ => s end).

Inductive complete_msg :=
  | Completed (n : Z) (task_hash : string) (first_line : Py.str).

Definition tasks_complete (index : Z) : M complete_msg :=
  steps <- load_tasks_raw ;;
  let n := clamp_index index (len steps) in
  ensure_completed_tasks ;;;
  ensure_completed_hashes ;;;
  task_content <- item steps n ;;
  let task_hash := generate_task_hash task_content in
  update_STATE (fun s => set_completed_tasks ({[n]} ∪ get_completed_tasks s) s) ;;;
  update_STATE (fun s => set_completed_hashes ({[task_hash]} ∪ get_completed_hashes s) s) ;;;
  ensure_task_hashes ;;;
  update_STATE (fun s => set_task_hashes (<[n := task_hash]> (get_task_hashes s)) s) ;;;
  s <- gets STATE ;;
  save_state s ;;;
  ret (Completed n task_hash (Py.first_line task_content)).

Inductive uncomplete_msg :=
  | Uncompleted (n : Z) (first_line : Py.str)
  | AlreadyIncomplete (n : Z).

Definition tasks_uncomplete (index : Z) : M uncomplete_msg :=
  steps <- load_tasks_raw ;;
  let n := clamp_index index (len steps) in
  s <- gets STATE ;;
  match completed_tasks s with
  | Some done =>
      if decide (n ∈ done) then
        update_STATE (set_completed_tasks (done ∖ {[n]})) ;;;
        s <- gets STATE ;;
        save_state s ;;;
        task <- item steps n ;;
        ret (Uncompleted n (Py.first_line task))
      else ret (AlreadyIncomplete n)
  | None => ret (AlreadyIncomplete n)
  end.

Inductive auto_msg :=
  | AllAlreadyCompleted
  | InvalidCount
  | PreparedAll (count : Z) (tasks_to_execute execution_results : list (Z * Py.str))
  | PreparedSome (count : Z) (tasks_to_execute : list (Z * Py.str))
      (index total_tasks : Z) (execution_results : list (Z * Py.str)).

(** The body of the [for i in range(...)] loop of [tasks_auto], on
    [(tasks_to_execute, execution_results)]. *)
Definition auto_item (steps_raw steps_with_rules : list Py.str)
    (acc : list (Z * Py.str) * list (Z * Py.str)) (i : Z)
  : M (list (Z * Py.str) * list (Z * Py.str)) :=
  let '(tasks_to_execute, execution_results) := acc in
  if (i <? len steps_raw)%Z then
    task <- item steps_raw i ;;
    let tasks_to_execute := tasks_to_execute ++ [(i, Py.first_line task)] in
    execution_results <-
      (if (i <? len steps_with_rules)%Z then
         full_task <- item steps_with_rules i ;;
         ret (execution_results ++ [(i, full_task)])
       else ret execution_results) ;;
    update_STATE (fun s => set_completed_tasks ({[i]} ∪ get_completed_tasks s) s) ;;;
    ret (tasks_to_execute, execution_results)
  else ret acc.

Definition tasks_auto (count : option Z) : M auto_msg :=
  steps_with_rules <- load_tasks ;;
  steps_raw <- load_tasks_raw ;;
  current_index <- gets (fun w => get_index (STATE w)) ;;
  let total_tasks := len steps_raw in
  if (total_tasks <=? current_index)%Z then ret AllAlreadyCompleted
  else
    ensure_completed_tasks ;;;
    let remaining_tasks := (total_tasks - current_index)%Z in
    let count := match count with None => remaining_tasks | Some c => c end in
    let count := if (remaining_tasks <? count)%Z then remaining_tasks else count in
    if (count <=? 0)%Z then ret InvalidCount
    else
      acc <- for_each (range current_index (current_index + count))
               (auto_item steps_raw steps_with_rules) ([], []) ;;
      let '(tasks_to_execute, execution_results) := acc in
      update_STATE (set_index (current_index + count)) ;;;
      s <- gets STATE ;;
      save_state s ;;;
      if (count =? remaining_tasks)%Z
      then ret (PreparedAll count tasks_to_execute execution_results)
      else ret (PreparedSome count tasks_to_execute (current_index + count)
                  total_tasks execution_results).

(** The positions a batch advance reports as touched. *)
Definition touched (m : auto_msg) : list Z :=
  match m with
  | PreparedAll _ tasks _ => map fst tasks
  | PreparedSome _ tasks _ _ _ => map fst tasks
  | _ => []
  end.

(** A world with the given task text and in-memory state, no rule file and
    nothing saved yet. *)
Definition world_of (raw : Py.str) (s : state) : world :=
  World (Text raw) Absent s None.

(** Blocks written one per paragraph: joined by a blank line. *)
Fixpoint paragraphs (bs : list Py.str) : Py.str :=
  match bs with
  | [] => []
  | [b] => b
  | b :: bs' => b ++ Py.NL :: Py.NL :: paragraphs bs'
  end.

(** ** Navigator and views *)

Inductive peek_msg :=
  | AllDone
  | CurrentTask (current_index : Z) (first_line : Py.str)
  | CurrentTaskWithRules (current_index : Z) (first_line : Py.str).

Definition tasks_peek : M peek_msg :=
  steps <- load_tasks_raw ;;
  update_STATE (fun s => set_index (clamp_index (get_index s) (len steps)) s) ;;;
  current_index <- gets (fun w => get_index (STATE w)) ;;
  if (len steps <=? current_index)%Z then ret AllDone
  else
    task <- item steps current_index ;;
    ret (CurrentTask current_index (Py.first_line task)).

Definition tasks_peek_with_rules : M peek_msg :=
  steps <- load_tasks ;;
  update_STATE (fun s => set_index (clamp_index (get_index s) (len steps)) s) ;;;
  current_index <- gets (fun w => get_index (STATE w)) ;;
  if (len steps <=? current_index)%Z then ret AllDone
  else
    task <- item steps current_index ;;
    ret (CurrentTaskWithRules current_index (Py.first_line task)).

Inductive next_msg :=
  | NextAllDone
  | Advanced (current_index : Z) (first_line : Py.str)
  | AdvancedWithRules (current_index : Z) (first_line : Py.str).

(** [autoAdvance] is accepted and ignored, as in the source. *)
Definition tasks_next (autoAdvance : bool) : M next_msg :=
  steps <- load_tasks_raw ;;
  update_STATE (fun s => set_index (clamp_index (get_index s) (len steps)) s) ;;;
  current_index <- gets (fun w => get_index (STATE w)) ;;
  if (len steps <=? current_index)%Z then ret NextAllDone
  else
    task <- item steps current_index ;;
    ensure_completed_tasks ;;;
    update_STATE (fun s =>
      set_completed_tasks ({[current_index]} ∪ get_completed_tasks s) s) ;;;
    update_STATE (fun s => set_index (get_index s + 1) s) ;;;
    s <- gets STATE ;;
    save_state s ;;;
    ret (Advanced current_index (Py.first_line task)).

Definition tasks_next_with_rules (autoAdvance : bool) : M next_msg :=
  steps <- load_tasks ;;
  update_STATE (fun s => set_index (clamp_index (get_index s) (len steps)) s) ;;;
  current_index <- gets (fun w => get_index (STATE w)) ;;
  if (len steps <=? current_index)%Z then ret NextAllDone
  else
    task <- item steps current_index ;;
    ensure_completed_tasks ;;;
    update_STATE (fun s =>
      set_completed_tasks ({[current_index]} ∪ get_completed_tasks s) s) ;;;
    update_STATE (fun s => set_index (get_index s + 1) s) ;;;
    s <- gets STATE ;;
    save_state s ;;;
    ret (AdvancedWithRules current_index (Py.first_line task)).

Inductive reset_msg := PointerReset.

Definition tasks_reset : M reset_msg :=
  update_STATE (set_index 0) ;;;
  s <- gets STATE ;;
  save_state s ;;;
  ret PointerReset.

Inductive reset_status_msg := StatusReset | NothingToReset.

Definition tasks_reset_status : M reset_status_msg :=
  s <- gets STATE ;;
  match completed_tasks s with
  | Some _ =>
      update_STATE (set_completed_tasks ∅) ;;;
      s <- gets STATE ;;
      save_state s ;;;
      ret StatusReset
  | None => ret NothingToReset
  end.

Inductive goto_msg := PointerMoved (n : Z).

Definition tasks_goto (index : Z) : M goto_msg :=
  steps <- load_tasks_raw ;;
  let n := clamp_index index (len steps) in
  update_STATE (set_index n) ;;;
  s <- gets STATE ;;
  save_state s ;;;
  ret (PointerMoved n).

Inductive start_msg := TaskInfo (n : Z) (task_content : Py.str).

Definition tasks_start (index : Z) : M start_msg :=
  steps <- load_tasks_raw ;;
  let n := clamp_index index (len steps) in
  task <- item steps n ;;
  ret (TaskInfo n (Py.first_line task)).

Inductive rules_msg := RulesShown (rules : Py.str) | NoRules.

Definition show_rules : M rules_msg :=
  rules <- load_rules ;;
  match rules with
  | _ :: _ => ret (RulesShown rules)
  | [] => ret NoRules
  end.

(** A row of the task table: position, completed?, first line.  The two
    header lines are constant. *)
Definition table_row : Type := Z * bool * Py.str.

Definition show_task_table : M (list table_row) :=
  steps <- load_tasks_raw ;;
  st <- gets STATE ;;
  let completed_tasks := get_completed_tasks st in
  ret (omap (fun '(i, task) =>
               let first_line := Py.first_line task in
               if Py.startswith_hash first_line then None
               else Some (Z.of_nat i,
                          bool_decide (Z.of_nat i ∈ completed_tasks),
                          first_line))
            (imap pair steps)).

(** The status line of the detailed listing. *)
Inductive summary :=
  | AllCompleted
  | AllWaiting
  | Mixed (completed waiting : option Z).

(** The detailed listing: total, summary, and per task its position,
    completed? and full text. *)
Definition explain_tasks_detailed : M (Z * summary * list table_row) :=
  steps <- load_tasks_raw ;;
  st <- gets STATE ;;
  let completed_tasks := get_completed_tasks st in
  let total_tasks := len (List.filter (fun t => negb (is_comment t)) steps) in
  let completed_count := Z.of_nat (size completed_tasks) in
  let waiting_count := (total_tasks - completed_count)%Z in
  let status :=
    if (0 <? completed_count)%Z && (waiting_count =? 0)%Z then AllCompleted
    else if (0 <? waiting_count)%Z && (completed_count =? 0)%Z then AllWaiting
    else Mixed (if (0 <? completed_count)%Z then Some completed_count else None)
               (if (0 <? waiting_count)%Z then Some waiting_count else None) in
  ret (total_tasks, status,
       omap (fun '(i, task) =>
               if is_comment task then None
               else Some (Z.of_nat i,
                          bool_decide (Z.of_nat i ∈ completed_tasks),
                          task))
            (imap pair steps)).

(** The world after the task file was edited from outside. *)
Definition edit_tasks (f : file) (w : world) : world :=
  World f (RULES_PATH w) (STATE w) (STATE_PATH w).

(** The positions of the blocks that do not start with the comment marker,
    counted over all blocks from [i]. *)
Fixpoint task_positions (i : Z) (tasks : list Py.str) : list Z :=
  match tasks with
  | [] => []
  | t :: tasks' =>
      if Py.startswith_hash t then task_positions (i + 1) tasks'
      else i :: task_positions (i + 1) tasks'
  end.

(** ** Vocabulary of the statements *)

(** The fingerprints reconciliation derives from a task file. *)
Definition current_hashes (f : file) : gmap Z string :=
  match f with
  | Text raw => hashed_blocks raw
  | _ => ∅
  end.

(** The dictionary [{i: hs[0], i+1: hs[1], ...}]. *)
Fixpoint enum_from (i : Z) (hs : list string) : gmap Z string :=
  match hs with
  | [] => ∅
  | h :: hs' => <[i := h]> (enum_from (i + 1) hs')
  end.

(** The fingerprints of the blocks that do not start with the comment
    marker, in order. *)
Definition task_fingerprints (tasks : list Py.str) : list string :=
  map generate_task_hash
    (List.filter (fun t => negb (Py.startswith_hash t)) tasks).

(** A line the parser treats as blank. *)
Definition blank (line : Py.str) : Prop := Py.strip (Py.rstrip line) = [].

(** A line as the parser stores it: no line feed, not blank, and nothing to
    trim on the right. *)
Definition stored_line (line : Py.str) : Prop :=
  (Py.NL ∉ line) ∧ line ≠ [] ∧ Py.rstrip line = line.

(** The lines of a block as the parser emits it: at least one stored line,
    the first one with nothing to trim on the left. *)
Definition block_lines (ls : list Py.str) : Prop :=
  Forall stored_line ls ∧
  match ls with
  | l :: _ => Py.lstrip l = l
  | [] => False
  end.

Definition lowercase_hex (c : ascii) : Prop :=
  let n := N_of_ascii c in (48 <= n <= 57 ∨ 97 <= n <= 102)%N.

(** The task file of the parsing scenario. *)
Definition comment_A_B : Py.str :=
  paragraphs [Py.lit "# comment"; Py.lit "Task A"; Py.lit "Task B"].

(** The lines of a text made of blocks, one blank line between two blocks. *)
Fixpoint lines_of (bss : list (list Py.str)) : list Py.str :=
  match bss with
  | [] => [[]]
  | [b] => b
  | b :: bss' => b ++ [] :: lines_of bss'
  end.

(** What the two parsers do with the block still open at end of input. *)
Definition finish_raw (st : list Py.str * list Py.str) : list Py.str :=
  let '(tasks, current_task) := st in
  match current_task with
  | _ :: _ => tasks ++ [Py.strip (Py.join_nl current_task)]
  | [] => tasks
  end.

Definition finish_hash (st : gmap Z string * list Py.str * Z) : gmap Z string :=
  let '(task_hashes, current_task, task_index) := st in
  match current_task with
  | _ :: _ =>
      let task_content := Py.strip (Py.join_nl current_task) in
      if negb (Py.startswith_hash task_content) then
        <[task_index := generate_task_hash task_content]> task_hashes
      else task_hashes
  | [] => task_hashes
  end.

(** The state reconciliation computes from a state and the fingerprints of
    the current task file. *)
Definition reconciled (s : state) (hashes : gmap Z string) : state :=
  let total_tasks := Z.of_nat (size hashes) in
  State (if (total_tasks <=? get_index s)%Z then Some total_tasks else index s)
        (Some (sync_loop (get_completed_hashes s) hashes).1)
        (Some (sync_loop (get_completed_hashes s) hashes).2)
        (Some hashes).

(** The state after the positions [ps] were added to [completed_tasks] one
    by one. *)
Definition mark_all (ps : list Z) (s : state) : state :=
  fold_left (fun s i => set_completed_tasks ({[i]} ∪ get_completed_tasks s) s) ps s.

(** The count of a batch advance as the specification resolves it:
    [min(count ?? remaining, remaining)]. *)
Definition resolved_count (count : option Z) (remaining : Z) : Z :=
  Z.min (default remaining count) remaining.

(** Task files and states of the scenarios. *)
Definition comment_then_A : Py.str := paragraphs [Py.lit "# c"; Py.lit "A"].
Definition one_task : Py.str := Py.lit "A".
Definition three_tasks : Py.str := paragraphs [Py.lit "a"; Py.lit "b"; Py.lit "c"].

Definition no_task_file : world := World Absent Absent default_state None.
Definition stale_history : state :=
  State (Some 0%Z) None (Some {[ "deadbeef"%string ]}) None.
Definition negative_index : state := State (Some (-3)%Z) None None None.
Definition all_done : state := State (Some 1%Z) None None None.

(** A block as the raw parser emits it. *)
Definition well_formed_block (b : Py.str) : Prop :=
  ∃ ls, block_lines ls ∧ b = Py.join_nl ls.

(** * Properties *)

(** ** Text *)

Section Text.
Import Py.

Lemma lstrip_length (s : str) : (List.length (lstrip s) <= List.length s)%nat.
Proof.
  induction s as [|c s IH]; simpl; [lia|].
  destruct (isspace c); simpl; lia.
Qed.

Lemma lstrip_nil (s : str) : lstrip s = [] -> forallb isspace s = true.
Proof.
  induction s as [|c s IH]; simpl; [done|].
  destruct (isspace c); [exact IH | discriminate].
Qed.

Lemma rstrip_spaces (s : str) : forallb isspace s = true -> rstrip s = [].
Proof.
  induction s as [|c s IH]; simpl; [done|].
  intros [Hc Hs]%andb_prop. rewrite (IH Hs), Hc. done.
Qed.

Lemma rstrip_nil (s : str) : rstrip s = [] -> forallb isspace s = true.
Proof.
  induction s as [|c s IH]; simpl; [done|].
  destruct (rstrip s) eqn:E; [|discriminate].
  destruct (isspace c); [intros _; simpl; auto | discriminate].
Qed.

Lemma rstrip_app_fixed (a b : str) :
  rstrip b = b -> b <> [] -> rstrip (a ++ b) = a ++ b.
Proof.
  intros Hb Hne. induction a as [|c a IH]; simpl; [done|].
  rewrite IH. destruct (a ++ b) eqn:E; [|done].
  apply app_eq_nil in E as [_ ->]. done.
Qed.

Lemma lstrip_app_fixed (a b : str) :
  lstrip a = a -> a <> [] -> lstrip (a ++ b) = a ++ b.
Proof.
  destruct a as [|c a]; [done|]. simpl. intros H _.
  destruct (isspace c); [|done].
  pose proof (lstrip_length a) as Hl. rewrite H in Hl. simpl in Hl. lia.
Qed.

Lemma rstrip_idemp (s : str) : rstrip (rstrip s) = rstrip s.
Proof.
  induction s as [|c s IH]; simpl; [done|].
  destruct (rstrip s) as [|d r] eqn:E.
  - destruct (isspace c) eqn:Ec; simpl; [done|]. by rewrite Ec.
  - change (rstrip (c :: d :: r)) with
      (match rstrip (d :: r) with [] => if isspace c then [] else [c] | x => c :: x end).
    rewrite IH. done.
Qed.

Lemma split_nl_nonempty (s : str) : split_nl s <> [].
Proof.
  destruct s as [|c s]; simpl; [done|].
  destruct (c =? NL)%N; [done|]. destruct (split_nl s); done.
Qed.

Lemma split_nl_app (a b : str) :
  split_nl (a ++ NL :: b) = split_nl a ++ split_nl b.
Proof.
  induction a as [|c a IH]; simpl; [done|].
  destruct (c =? NL)%N; [by rewrite IH|].
  rewrite IH. destruct (split_nl a) eqn:E; [|done].
  by apply split_nl_nonempty in E.
Qed.

Lemma split_nl_line (l : str) : NL ∉ l -> split_nl l = [l].
Proof.
  induction l as [|c l IH]; simpl; [done|].
  intros Hn. apply not_elem_of_cons in Hn as [Hc Hl].
  destruct (N.eqb_spec c NL) as [->|_]; [done|].
  by rewrite (IH Hl).
Qed.

Lemma split_nl_join (ls : list str) :
  ls <> [] -> Forall (fun l => NL ∉ l) ls -> split_nl (join_nl ls) = ls.
Proof.
  induction ls as [|l ls IH]; [done|]. intros _ Hall.
  apply Forall_cons in Hall as [Hl Hls].
  destruct ls as [|l' ls]; [by apply split_nl_line|].
  change (join_nl (l :: l' :: ls)) with (l ++ NL :: join_nl (l' :: ls)).
  rewrite split_nl_app, split_nl_line, IH; done.
Qed.

End Text.

(** ** Parser *)

Section Parser.
Import Py.

Lemma blocks_unfold (raw : str) :
  blocks raw = finish_raw (fold_left raw_line (split_nl raw) ([], [])).
Proof. unfold blocks, finish_raw. done. Qed.

Lemma hashed_blocks_unfold (raw : str) :
  hashed_blocks raw = finish_hash (fold_left hash_line (split_nl raw) (∅, [], 0%Z)).
Proof. unfold hashed_blocks, finish_hash. done. Qed.

Lemma stored_line_not_blank (l : str) :
  stored_line l -> rstrip l = l ∧ is_empty (strip l) = false.
Proof.
  intros (_ & Hne & Hr). split; [done|].
  unfold strip. rewrite Hr.
  destruct (lstrip l) eqn:E; [|done].
  apply lstrip_nil, rstrip_spaces in E. congruence.
Qed.

Lemma raw_line_stored tasks cur l :
  stored_line l -> raw_line (tasks, cur) l = (tasks, cur ++ [l]).
Proof.
  intros [Hr Hb]%stored_line_not_blank. unfold raw_line.
  rewrite Hr, Hb. done.
Qed.

Lemma raw_line_blank tasks cur l :
  blank l ->
  raw_line (tasks, cur) l =
    match cur with
    | _ :: _ => (tasks ++ [strip (join_nl cur)], [])
    | [] => (tasks, [])
    end.
Proof.
  unfold blank, raw_line. intros ->. simpl. by destruct cur.
Qed.

Lemma raw_line_not_blank tasks cur l :
  ¬ blank l -> raw_line (tasks, cur) l = (tasks, cur ++ [rstrip l]).
Proof.
  unfold blank, raw_line. intros H.
  destruct (strip (rstrip l)); [done|]. done.
Qed.

Lemma fold_raw_stored (ls : list str) tasks cur :
  Forall stored_line ls ->
  fold_left raw_line ls (tasks, cur) = (tasks, cur ++ ls).
Proof.
  intros H. revert cur. induction H as [|l ls Hl _ IH]; intros cur;
    cbn [fold_left].
  - by rewrite app_nil_r.
  - rewrite raw_line_stored, IH, <- app_assoc; done.
Qed.

Lemma block_lines_strip (ls : list str) :
  block_lines ls -> strip (join_nl ls) = join_nl ls.
Proof.
  intros [Hall Hfirst].
  assert (Hr : ls <> [] -> rstrip (join_nl ls) = join_nl ls ∧ join_nl ls <> []).
  { clear Hfirst. induction Hall as [|l ls Hl Hall IH]; [done|]. intros _.
    destruct Hl as (_ & Hne & Hr).
    destruct ls as [|l' ls]; [done|].
    destruct IH as [IH1 IH2]; [done|].
    change (join_nl (l :: l' :: ls)) with (l ++ NL :: join_nl (l' :: ls)).
    split; [|by destruct l].
    change (l ++ NL :: join_nl (l' :: ls)) with (l ++ [NL] ++ join_nl (l' :: ls)).
    rewrite app_assoc. by apply rstrip_app_fixed. }
  destruct ls as [|l ls]; [done|].
  destruct Hr as [Hr _]; [done|].
  unfold strip. rewrite Hr.
  apply Forall_cons in Hall as [(_ & Hne & _) _].
  destruct ls as [|l' ls]; [done|].
  change (join_nl (l :: l' :: ls)) with (l ++ NL :: join_nl (l' :: ls)).
  by apply lstrip_app_fixed.
Qed.

Lemma split_paragraphs (bss : list (list str)) :
  bss <> [] -> Forall block_lines bss ->
  split_nl (paragraphs (map join_nl bss)) = lines_of bss.
Proof.
  induction bss as [|b bss IH]; [done|]. intros _ Hall.
  apply Forall_cons in Hall as [[Hb Hf] Hbss].
  assert (Hsplit : split_nl (join_nl b) = b).
  { apply split_nl_join; [by destruct b|].
    eapply Forall_impl; [exact Hb|]. by intros l (? & _). }
  destruct bss as [|b' bss]; [done|].
  change (paragraphs (map join_nl (b :: b' :: bss))) with
    (join_nl b ++ NL :: NL :: paragraphs (map join_nl (b' :: bss))).
  rewrite split_nl_app, Hsplit.
  change (split_nl (NL :: ?x)) with ([] :: split_nl x).
  rewrite IH; done.
Qed.

Lemma fold_raw_lines_of (bss : list (list str)) tasks :
  bss <> [] -> Forall block_lines bss ->
  finish_raw (fold_left raw_line (lines_of bss) (tasks, [])) =
    tasks ++ map join_nl bss.
Proof.
  revert tasks. induction bss as [|b bss IH]; [done|]. intros tasks _ Hall.
  apply Forall_cons in Hall as [Hb Hbss].
  pose proof (block_lines_strip b Hb) as Hstrip.
  destruct Hb as [Hb Hf].
  destruct bss as [|b' bss].
  - cbn [lines_of map]. rewrite fold_raw_stored by done.
    cbn [finish_raw app]. destruct b; [done|]. by rewrite Hstrip.
  - change (lines_of (b :: b' :: bss)) with (b ++ [] :: lines_of (b' :: bss)).
    rewrite fold_left_app, fold_raw_stored by done.
    change (fold_left raw_line ([] :: ?x) ?st) with
      (fold_left raw_line x (raw_line st [])).
    rewrite raw_line_blank by done. cbn [app].
    destruct b as [|l b]; [done|].
    rewrite IH by done. rewrite Hstrip, <- app_assoc. done.
Qed.

(** Every block of a well-formed text comes out of the raw parser, whether
    it starts with the comment marker or not. *)
Lemma blocks_paragraphs (bss : list (list str)) :
  bss <> [] -> Forall block_lines bss ->
  blocks (paragraphs (map join_nl bss)) = map join_nl bss.
Proof.
  intros Hne Hall.
  rewrite blocks_unfold, split_paragraphs, fold_raw_lines_of; done.
Qed.



End Parser.

(** ** The fingerprint map against the raw parse *)

Section Fingerprints.
Import Py.

Lemma enum_from_snoc (i : Z) (hs : list string) (h : string) :
  enum_from i (hs ++ [h]) = <[(i + len hs)%Z := h]> (enum_from i hs).
Proof.
  revert i. induction hs as [|x hs IH]; intros i.
  - cbn. by rewrite Z.add_0_r.
  - cbn [app enum_from]. rewrite IH.
    replace (i + len (x :: hs))%Z with (i + 1 + len hs)%Z
      by (unfold len; cbn [List.length]; lia).
    apply insert_insert_ne. unfold len. lia.
Qed.

Lemma enum_from_lookup_lt (i k : Z) (hs : list string) :
  (k < i)%Z -> enum_from i hs !! k = None.
Proof.
  revert i. induction hs as [|x hs IH]; intros i Hk; cbn [enum_from].
  - apply lookup_empty.
  - rewrite lookup_insert_ne by lia. apply IH. lia.
Qed.

Lemma enum_from_size (i : Z) (hs : list string) :
  size (enum_from i hs) = List.length hs.
Proof.
  revert i. induction hs as [|x hs IH]; intros i; cbn [enum_from List.length].
  - apply map_size_empty.
  - rewrite map_size_insert_None, IH; [done|].
    apply enum_from_lookup_lt. lia.
Qed.

Lemma enum_from_lookup (i k : Z) (hs : list string) :
  (i <= k)%Z -> enum_from i hs !! k = hs !! Z.to_nat (k - i).
Proof.
  revert i. induction hs as [|x hs IH]; intros i Hk; cbn [enum_from].
  - by rewrite lookup_empty, lookup_nil.
  - destruct (decide (i = k)) as [->|Hne].
    + by rewrite lookup_insert_eq, Z.sub_diag.
    + rewrite lookup_insert_ne, IH by lia.
      replace (Z.to_nat (k - i)) with (S (Z.to_nat (k - (i + 1)))) by lia.
      done.
Qed.

Lemma task_fingerprints_snoc (tasks : list str) (b : str) :
  task_fingerprints (tasks ++ [b]) =
    task_fingerprints tasks ++
      (if negb (startswith_hash b) then [generate_task_hash b] else []).
Proof.
  unfold task_fingerprints. rewrite List.filter_app, map_app. cbn.
  by destruct (startswith_hash b).
Qed.

Lemma hash_line_raw_line tasks cur l :
  hash_line (enum_from 0 (task_fingerprints tasks), cur,
             len (task_fingerprints tasks)) l =
    (enum_from 0 (task_fingerprints (raw_line (tasks, cur) l).1),
     (raw_line (tasks, cur) l).2,
     len (task_fingerprints (raw_line (tasks, cur) l).1)).
Proof.
  unfold hash_line, raw_line.
  destruct (is_empty (strip (rstrip l))); [|done].
  destruct cur as [|c cur]; [done|]. cbn [fst snd].
  rewrite task_fingerprints_snoc.
  destruct (startswith_hash (strip (join_nl (c :: cur)))); cbn [negb].
  - by rewrite app_nil_r.
  - rewrite enum_from_snoc, Z.add_0_l. unfold len.
    rewrite length_app. cbn [List.length]. do 2 f_equal. lia.
Qed.

Lemma fold_hash_raw (ls : list str) tasks cur :
  fold_left hash_line ls
    (enum_from 0 (task_fingerprints tasks), cur, len (task_fingerprints tasks)) =
  (enum_from 0 (task_fingerprints (fold_left raw_line ls (tasks, cur)).1),
   (fold_left raw_line ls (tasks, cur)).2,
   len (task_fingerprints (fold_left raw_line ls (tasks, cur)).1)).
Proof.
  revert tasks cur. induction ls as [|l ls IH]; intros tasks cur;
    cbn [fold_left]; [done|].
  rewrite hash_line_raw_line.
  destruct (raw_line (tasks, cur) l) as [tasks' cur']. apply IH.
Qed.

(** The fingerprint map numbers the non-comment blocks of the raw parse
    from 0, in order. *)
Lemma hashed_blocks_blocks (raw : str) :
  hashed_blocks raw = enum_from 0 (task_fingerprints (blocks raw)).
Proof.
  rewrite hashed_blocks_unfold, blocks_unfold.
  change (∅, [], 0%Z) with
    (enum_from 0 (task_fingerprints []), @nil str, len (task_fingerprints [])).
  rewrite fold_hash_raw.
  destruct (fold_left raw_line (split_nl raw) ([], [])) as [tasks cur].
  cbn [fst snd finish_hash finish_raw].
  destruct cur as [|c cur]; [done|].
  rewrite task_fingerprints_snoc.
  destruct (startswith_hash (strip (join_nl (c :: cur)))); cbn [negb].
  - by rewrite app_nil_r.
  - by rewrite enum_from_snoc, Z.add_0_l.
Qed.

Lemma hashed_blocks_size (raw : str) :
  size (hashed_blocks raw) = List.length (task_fingerprints (blocks raw)).
Proof. rewrite hashed_blocks_blocks. apply enum_from_size. Qed.

Lemma hash_line_blank m cur idx l :
  blank l ->
  finish_hash (hash_line (m, cur, idx) l) = finish_hash (m, cur, idx).
Proof.
  unfold blank, hash_line. intros ->. cbn [is_empty].
  destruct cur as [|c cur]; [done|]. cbn [finish_hash].
  by destruct (startswith_hash (strip (join_nl (c :: cur)))).
Qed.

Lemma hashed_blocks_leading_blank (ws raw : str) :
  NL ∉ ws -> blank ws -> hashed_blocks (ws ++ NL :: raw) = hashed_blocks raw.
Proof.
  intros Hnl Hb. rewrite !hashed_blocks_unfold, split_nl_app.
  rewrite (split_nl_line ws) by done.
  cbn [app fold_left]. unfold hash_line at 2. unfold blank in Hb. by rewrite Hb.
Qed.

Lemma hashed_blocks_trailing_blank (ws raw : str) :
  NL ∉ ws -> blank ws -> hashed_blocks (raw ++ NL :: ws) = hashed_blocks raw.
Proof.
  intros Hnl Hb. rewrite !hashed_blocks_unfold, split_nl_app.
  rewrite (split_nl_line ws) by done.
  rewrite fold_left_app. cbn [fold_left].
  destruct (fold_left hash_line (split_nl raw) (∅, [], 0%Z)) as [[m cur] idx].
  by apply hash_line_blank.
Qed.

End Fingerprints.

(** ** Hasher *)

(** The digest agrees with [hashlib.md5] on the RFC 1321 test vectors, on
    inputs around the block boundary and on text outside ASCII. *)

Example md5_empty :
  MD5.hexdigest (Py.encode_utf8 (Py.lit "")) = "d41d8cd98f00b204e9800998ecf8427e"%string.
Proof. vm_compute. reflexivity. Qed.

Example md5_abc :
  MD5.hexdigest (Py.encode_utf8 (Py.lit "abc")) = "900150983cd24fb0d6963f7d28e17f72"%string.
Proof. vm_compute. reflexivity. Qed.

Example md5_two_blocks :
  MD5.hexdigest (Py.encode_utf8 (repeat 121%N 64)) = "b0c4864f4e28d2d76929c38d87db7ed5"%string.
Proof. vm_compute. reflexivity. Qed.

Example md5_56 :
  MD5.hexdigest (Py.encode_utf8 (repeat 120%N 56)) = "668a72d5ba17f08e62dabcafad6db14b"%string.
Proof. vm_compute. reflexivity. Qed.

Example md5_hangul :
  MD5.hexdigest (Py.encode_utf8 [54620%N]) = "f7ad7dea32e2e9f801a2e8472e4089a5"%string.
Proof. vm_compute. reflexivity. Qed.

Example md5_A :
  generate_task_hash (Py.lit "A") = "7fc56270"%string.
Proof. vm_compute. reflexivity. Qed.

Section Hasher.

Lemma le_bytes_length (n : nat) (x : N) : List.length (MD5.le_bytes n x) = n.
Proof. revert x. induction n as [|n IH]; intros x; cbn; [done|]. by rewrite IH. Qed.

Lemma digest_length (msg : list N) : List.length (MD5.digest msg) = 16%nat.
Proof.
  unfold MD5.digest.
  destruct (MD5.absorb _ _ _) as [[[a b] c] d].
  rewrite !length_app, !le_bytes_length. done.
Qed.

Lemma hex_length (bs : list N) :
  String.length (MD5.hex bs) = (2 * List.length bs)%nat.
Proof. induction bs as [|b bs IH]; cbn; [done|]. rewrite IH. lia. Qed.

Lemma hexdigest_length (msg : list N) :
  String.length (MD5.hexdigest msg) = 32%nat.
Proof. unfold MD5.hexdigest. by rewrite hex_length, digest_length. Qed.

Lemma prefix_str_length (n : nat) (s : string) :
  (n <= String.length s)%nat -> String.length (prefix_str n s) = n.
Proof.
  revert s. induction n as [|n IH]; intros s Hn; [done|].
  destruct s as [|c s]; cbn in *; [lia|]. rewrite IH; [done|lia].
Qed.

Lemma hex_digit_lowercase (n : N) : lowercase_hex (MD5.hex_digit n).
Proof.
  unfold lowercase_hex, MD5.hex_digit.
  assert (n mod 16 < 16)%N as Hm by (apply N.mod_lt; lia).
  generalize dependent (n mod 16)%N. intros m Hm.
  destruct (N.ltb_spec m 10); cbv zeta;
    rewrite N_ascii_embedding by lia; lia.
Qed.

Lemma hex_lowercase (bs : list N) :
  Forall lowercase_hex (list_ascii_of_string (MD5.hex bs)).
Proof.
  induction bs as [|b bs IH]; cbn [MD5.hex list_ascii_of_string]; [constructor|].
  constructor; [apply hex_digit_lowercase|].
  constructor; [apply hex_digit_lowercase|exact IH].
Qed.

Lemma prefix_str_Forall (P : ascii -> Prop) (n : nat) (s : string) :
  Forall P (list_ascii_of_string s) ->
  Forall P (list_ascii_of_string (prefix_str n s)).
Proof.
  revert s. induction n as [|n IH]; intros s H; [constructor|].
  destruct s as [|c s]; cbn in *; [constructor|].
  apply Forall_cons in H as [Hc Hs]. constructor; auto.
Qed.

End Hasher.

(** ** Reading the task file *)

Section Reading.

Lemma bind_run {A B} (m : M A) (k : A -> M B) (w : world) :
  bind m k w =
    match m w with
    | (inr a, w') => k a w'
    | (inl e, w') => (inl e, w')
    end.
Proof. reflexivity. Qed.

(** Reading never changes the world, and its outcome is decided by the
    task file alone. *)
Lemma load_tasks_raw_run (w : world) :
  load_tasks_raw w = (eval load_tasks_raw w, w).
Proof.
  unfold eval, load_tasks_raw, bind, gets, raise, ret.
  destruct (TASKS_PATH w) as [| |raw]; [reflexivity..|].
  destruct (blocks raw); reflexivity.
Qed.

Lemma load_tasks_raw_eval (w : world) :
  eval load_tasks_raw w =
    match TASKS_PATH w with
    | Absent => inl FileNotFoundError
    | Unreadable => inl ReadError
    | Text raw =>
        match blocks raw with
        | [] => inl ValueError
        | tasks => inr tasks
        end
    end.
Proof.
  unfold eval, load_tasks_raw, bind, gets, raise, ret.
  destruct (TASKS_PATH w) as [| |raw]; [reflexivity..|].
  destruct (blocks raw); reflexivity.
Qed.

Lemma load_tasks_raw_same_file (w w' : world) :
  TASKS_PATH w' = TASKS_PATH w ->
  eval load_tasks_raw w' = eval load_tasks_raw w.
Proof. intros H. by rewrite !load_tasks_raw_eval, H. Qed.

Lemma load_tasks_raw_nonempty (w : world) (steps : list Py.str) :
  eval load_tasks_raw w = inr steps -> steps <> [].
Proof.
  rewrite load_tasks_raw_eval.
  destruct (TASKS_PATH w) as [| |raw]; [done..|].
  destruct (blocks raw); [done|]. by intros [= <-].
Qed.

Lemma load_tasks_raw_blocks (raw : Py.str) (w : world) (steps : list Py.str) :
  TASKS_PATH w = Text raw ->
  eval load_tasks_raw w = inr steps -> blocks raw = steps.
Proof.
  rewrite load_tasks_raw_eval. intros ->.
  destruct (blocks raw); [done|]. by intros [= <-].
Qed.

Lemma load_rules_run (w : world) :
  ∃ rules, load_rules w = (inr rules, w) ∧ rules <> [].
Proof.
  unfold load_rules, bind, gets, ret.
  destruct (RULES_PATH w) as [| |raw]; [by exists base_rules..|].
  destruct (Py.strip raw) as [|c user_rules]; [by exists base_rules|].
  by exists (base_rules ++ c :: user_rules).
Qed.

Lemma load_tasks_run (w : world) (steps : list Py.str) :
  eval load_tasks_raw w = inr steps ->
  ∃ steps_with_rules,
    load_tasks w = (inr steps_with_rules, w) ∧
    List.length steps_with_rules = List.length steps.
Proof.
  intros Hsteps. unfold load_tasks, bind at 1.
  destruct (load_rules_run w) as (rules & -> & Hne).
  unfold bind. rewrite load_tasks_raw_run, Hsteps.
  destruct rules as [|c rules]; [done|].
  eexists. split; [reflexivity|]. by rewrite length_map.
Qed.

End Reading.

(** ** Reconciler *)

Section Reconciler.

Lemma fold_sync_item (known : gset string) (l : list (Z * string))
    (A : gset Z) (B : gset string) :
  (∀ k, k ∈ (fold_left (sync_item known) l (A, B)).1 ↔
        k ∈ A ∨ ∃ h, (k, h) ∈ l ∧ h ∈ known) ∧
  (∀ h, h ∈ (fold_left (sync_item known) l (A, B)).2 ↔
        h ∈ B ∨ (h ∈ known ∧ ∃ k, (k, h) ∈ l)).
Proof.
  revert A B. induction l as [|[k0 h0] l IH]; intros A B; cbn [fold_left].
  - split; intros x; cbn [fst snd]; split; auto.
    + intros [?|(h & Hh & _)]; [done|]. by apply elem_of_nil in Hh.
    + intros [?|(_ & k & Hk)]; [done|]. by apply elem_of_nil in Hk.
  - unfold sync_item at 2 4. destruct (decide (h0 ∈ known)) as [Hin|Hout].
    + destruct (IH ({[k0]} ∪ A) ({[h0]} ∪ B)) as [IH1 IH2]. split; intros x.
      * rewrite IH1, elem_of_union, elem_of_singleton. split.
        -- intros [[->|?]|(h & Hh & ?)]; [right; exists h0|by left|right; exists h];
             (split; [|done]); [by left | by right].
        -- intros [?|(h & [Heq|Hh]%elem_of_cons & ?)];
             [by left; right | left; left; congruence | right; by exists h].
      * rewrite IH2, elem_of_union, elem_of_singleton. split.
        -- intros [[->|?]|(? & k & Hk)];
             [right; split; [done|]; exists k0; by left | by left
             | right; split; [done|]; exists k; by right].
        -- intros [?|(? & k & [Heq|Hk]%elem_of_cons)];
             [by left; right | left; left; congruence | right; split; [done|]; by exists k].
    + destruct (IH A B) as [IH1 IH2]. split; intros x.
      * rewrite IH1. split.
        -- intros [?|(h & Hh & ?)]; [by left|right; exists h; split; [by right|done]].
        -- intros [?|(h & [Heq|Hh]%elem_of_cons & ?)];
             [by left | exfalso; apply Hout; congruence | right; by exists h].
      * rewrite IH2. split.
        -- intros [?|(? & k & Hk)]; [by left|right; split; [done|]; exists k; by right].
        -- intros [?|(? & k & [Heq|Hk]%elem_of_cons)];
             [by left | exfalso; apply Hout; congruence | right; split; [done|]; by exists k].
Qed.

(** The positions reconciliation marks complete. *)
Lemma sync_loop_tasks (known : gset string) (hashes : gmap Z string) (k : Z) :
  k ∈ (sync_loop known hashes).1 ↔ ∃ h, hashes !! k = Some h ∧ h ∈ known.
Proof.
  unfold sync_loop.
  destruct (fold_sync_item known (map_to_list hashes) ∅ ∅) as [H _].
  rewrite H. split.
  - intros [Hk|(h & Hh & ?)]; [by apply elem_of_empty in Hk|].
    exists h. by rewrite <- elem_of_map_to_list.
  - intros (h & Hh & ?). right. exists h. by rewrite elem_of_map_to_list.
Qed.

(** The fingerprints reconciliation keeps. *)
Lemma sync_loop_hashes (known : gset string) (hashes : gmap Z string) (h : string) :
  h ∈ (sync_loop known hashes).2 ↔ h ∈ known ∧ ∃ k, hashes !! k = Some h.
Proof.
  unfold sync_loop.
  destruct (fold_sync_item known (map_to_list hashes) ∅ ∅) as [_ H].
  rewrite H. split.
  - intros [Hk|(? & k & Hk)]; [by apply elem_of_empty in Hk|].
    split; [done|]. exists k. by rewrite <- elem_of_map_to_list.
  - intros (? & k & Hk). right. split; [done|]. exists k.
    by rewrite elem_of_map_to_list.
Qed.

Lemma sync_loop_idemp (known : gset string) (hashes : gmap Z string) :
  sync_loop (sync_loop known hashes).2 hashes = sync_loop known hashes.
Proof.
  apply injective_projections.
  - apply set_eq. intros k. rewrite !sync_loop_tasks.
    split; intros (h & Hh & Hin); exists h; (split; [done|]).
    + by apply sync_loop_hashes in Hin as [? _].
    + apply sync_loop_hashes. eauto.
  - apply set_eq. intros h. rewrite !sync_loop_hashes. tauto.
Qed.

Lemma reconciled_idemp (s : state) (hashes : gmap Z string) :
  reconciled (reconciled s hashes) hashes = reconciled s hashes.
Proof.
  unfold reconciled at 1 3.
  change (get_completed_hashes (reconciled s hashes))
    with (sync_loop (get_completed_hashes s) hashes).2.
  rewrite sync_loop_idemp. f_equal.
  unfold reconciled, get_index. cbn [index].
  destruct (Z.leb_spec (Z.of_nat (size hashes)) (default 0%Z (index s))) as [H|H];
    cbn [default].
  - by rewrite Z.leb_refl.
  - destruct (Z.leb_spec (Z.of_nat (size hashes)) (default 0%Z (index s))); [lia|done].
Qed.

Lemma reconciled_completed_tasks (s : state) (hashes : gmap Z string) (k : Z) :
  k ∈ get_completed_tasks (reconciled s hashes) ↔
  ∃ h, hashes !! k = Some h ∧ h ∈ get_completed_hashes s.
Proof. apply sync_loop_tasks. Qed.

Lemma reconciled_index (s : state) (hashes : gmap Z string) :
  get_index (reconciled s hashes) =
    if (Z.of_nat (size hashes) <=? get_index s)%Z
    then Z.of_nat (size hashes) else get_index s.
Proof.
  unfold reconciled, get_index at 1. cbn [index].
  by destruct (Z.of_nat (size hashes) <=? get_index s)%Z.
Qed.

Lemma get_current_task_hashes_run (w : world) :
  get_current_task_hashes w = (inr (current_hashes (TASKS_PATH w)), w).
Proof.
  unfold get_current_task_hashes, bind, gets, current_hashes.
  by destruct (TASKS_PATH w).
Qed.

Lemma sync_state_with_tasks_run (w : world) :
  sync_state_with_tasks w =
    (inr (reconciled (STATE w) (current_hashes (TASKS_PATH w))),
     World (TASKS_PATH w) (RULES_PATH w) (STATE w)
           (Some (reconciled (STATE w) (current_hashes (TASKS_PATH w))))).
Proof.
  unfold sync_state_with_tasks, bind at 1, gets at 1.
  unfold bind at 1. rewrite get_current_task_hashes_run.
  destruct w as [tp rp [i ct ch th] sp]. cbn [TASKS_PATH RULES_PATH STATE].
  set (hashes := current_hashes tp).
  unfold reconciled, get_completed_hashes.
  destruct th, ch; cbn [completed_hashes task_hashes set_task_hashes
    set_completed_hashes default index completed_tasks];
    destruct (sync_loop _ hashes) as [CT CH]; cbn zeta;
    unfold get_index, set_task_hashes, set_completed_hashes,
      set_completed_tasks, set_index;
    cbn [index completed_tasks completed_hashes task_hashes fst snd];
    destruct (Z.of_nat (size hashes) <=? default 0%Z i)%Z; reflexivity.
Qed.

Lemma sync_tasks_exec (w : world) :
  exec sync_tasks w =
    World (TASKS_PATH w) (RULES_PATH w)
          (reconciled (STATE w) (current_hashes (TASKS_PATH w)))
          (Some (reconciled (STATE w) (current_hashes (TASKS_PATH w)))).
Proof.
  unfold exec, sync_tasks, try_except, bind at 1.
  rewrite sync_state_with_tasks_run.
  unfold bind at 1, put_STATE, update_STATE.
  unfold bind at 1. rewrite load_tasks_raw_run.
  destruct (eval load_tasks_raw _); reflexivity.
Qed.

End Reconciler.

(** ** Completion tracker *)

Section Tracker.

Lemma clamp_index_range (idx n : Z) :
  (0 <= n)%Z -> (0 <= clamp_index idx n <= n)%Z.
Proof.
  unfold clamp_index. intros Hn.
  destruct (Z.ltb_spec idx 0); [lia|]. destruct (Z.ltb_spec n idx); lia.
Qed.

Lemma len_nonneg {A} (l : list A) : (0 <= len l)%Z.
Proof. unfold len. lia. Qed.

Lemma item_run {A} (l : list A) (i : Z) (w : world) :
  item l i w = (eval (item l i) w, w).
Proof.
  unfold eval, item, raise, ret.
  destruct (_ <? 0)%Z; [done|]. by destruct (l !! _).
Qed.

Lemma item_in_range {A} (l : list A) (i : Z) (a : A) (w : world) :
  (0 <= i)%Z -> l !! Z.to_nat i = Some a -> item l i w = (inr a, w).
Proof.
  intros Hi Ha. unfold item.
  destruct (Z.ltb_spec i 0); [lia|].
  destruct (Z.ltb_spec i 0); [lia|]. by rewrite Ha.
Qed.

Lemma item_past_end {A} (l : list A) (i : Z) (w : world) :
  (len l <= i)%Z -> item l i w = (inl IndexError, w).
Proof.
  intros Hi. unfold item. pose proof (len_nonneg l).
  destruct (Z.ltb_spec i 0); [lia|].
  destruct (Z.ltb_spec i 0); [lia|].
  rewrite lookup_ge_None_2; [done|]. unfold len in Hi. lia.
Qed.

(** In range, [tasks_complete] records the position and the fingerprint of
    the block of the raw parse at that position, and saves. *)
Lemma tasks_complete_in_range (w : world) (steps : list Py.str) (idx : Z)
    (task : Py.str) :
  eval load_tasks_raw w = inr steps ->
  steps !! Z.to_nat (clamp_index idx (len steps)) = Some task ->
  tasks_complete idx w =
    (inr (Completed (clamp_index idx (len steps)) (generate_task_hash task)
            (Py.first_line task)),
     let s' :=
       State (index (STATE w))
         (Some ({[clamp_index idx (len steps)]} ∪ get_completed_tasks (STATE w)))
         (Some ({[generate_task_hash task]} ∪ get_completed_hashes (STATE w)))
         (Some (<[clamp_index idx (len steps) := generate_task_hash task]>
                  (get_task_hashes (STATE w)))) in
     World (TASKS_PATH w) (RULES_PATH w) s' (Some s')).
Proof.
  intros Hsteps Htask. unfold tasks_complete, bind at 1.
  rewrite load_tasks_raw_run, Hsteps.
  pose proof (clamp_index_range idx (len steps) (len_nonneg steps)) as [Hn _].
  set (n := clamp_index idx (len steps)) in *.
  unfold bind at 1, ensure_completed_tasks, update_STATE.
  unfold bind at 1, ensure_completed_hashes, update_STATE.
  unfold bind at 1. rewrite (item_in_range steps n task) by done.
  destruct w as [tp rp [i ct ch th] sp].
  destruct ct, ch, th; reflexivity.
Qed.

End Tracker.

(** ** The claims *)

(** *** C1 *)




(** *** C2 *)

(** C2 as stated fails on the code: reconciling a state whose history holds
    a fingerprint of no current task changes [completed_hashes]. *)
Lemma sync_tasks_prunes_history :
  completed_hashes (STATE (exec sync_tasks (world_of one_task stale_history)))
    <> completed_hashes (STATE (world_of one_task stale_history)).
Proof. vm_compute. discriminate. Qed.

(** C2, amended: after reconciliation [completed_hashes] holds exactly the
    previously recorded fingerprints that are the fingerprint of some current
    non-comment task; fingerprints of tasks absent from the file are dropped,
    none is added. *)
Theorem sync_tasks_completed_hashes (w : world) (h : string) :
  h ∈ get_completed_hashes (STATE (exec sync_tasks w)) ↔
  h ∈ get_completed_hashes (STATE w) ∧
  ∃ k, current_hashes (TASKS_PATH w) !! k = Some h.
Proof.
  rewrite sync_tasks_exec. cbn [STATE]. unfold reconciled, get_completed_hashes at 1.
  cbn [completed_hashes default]. apply sync_loop_hashes.
Qed.

(** *** C3 *)




(** *** C5 *)

(** C5: reconciliation is idempotent.  Running [sync_tasks] twice on an
    unchanged task file leaves the same world (in-memory state and state
    file) as running it once, and [sync_state_with_tasks] returns the same
    state the second time. *)
Theorem sync_tasks_idempotent (w : world) :
  exec sync_tasks (exec sync_tasks w) = exec sync_tasks w ∧
  eval sync_state_with_tasks (exec sync_tasks w) = eval sync_state_with_tasks w.
Proof.
  unfold eval. rewrite !sync_state_with_tasks_run, !sync_tasks_exec.
  cbn [TASKS_PATH RULES_PATH STATE fst]. by rewrite reconciled_idemp.
Qed.

(** *** C6 *)

(** C6 as stated fails on the code: a negative stored index stays negative
    through reconciliation. *)
Lemma sync_tasks_keeps_negative_index :
  get_index (STATE (exec sync_tasks (world_of one_task negative_index))) = (-3)%Z ∧
  ¬ (0 <= get_index (STATE (exec sync_tasks (world_of one_task negative_index)))
       <= Z.of_nat (size (current_hashes (Text one_task))))%Z.
Proof.
  assert (get_index (STATE (exec sync_tasks (world_of one_task negative_index)))
          = (-3)%Z) as E by (vm_compute; reflexivity).
  split; [exact E|]. rewrite E. lia.
Qed.

(** C6, amended: for every persisted state whose index is not negative,
    reconciliation leaves the index in [0, N], N the number of non-comment
    blocks of the task file, and an index above N becomes exactly N. *)
Theorem sync_tasks_index_bounds (w : world) :
  (0 <= get_index (STATE w))%Z ->
  (0 <= get_index (STATE (exec sync_tasks w))
     <= Z.of_nat (size (current_hashes (TASKS_PATH w))))%Z ∧
  ((Z.of_nat (size (current_hashes (TASKS_PATH w))) < get_index (STATE w))%Z ->
   get_index (STATE (exec sync_tasks w)) =
     Z.of_nat (size (current_hashes (TASKS_PATH w)))) ∧
  (∀ raw, TASKS_PATH w = Text raw ->
     size (current_hashes (TASKS_PATH w)) =
       List.length (List.filter (fun t => negb (Py.startswith_hash t)) (blocks raw))).
Proof.
  intros Hidx. rewrite sync_tasks_exec. cbn [STATE].
  rewrite reconciled_index.
  destruct (Z.leb_spec (Z.of_nat (size (current_hashes (TASKS_PATH w))))
              (get_index (STATE w))) as [H|H].
  - split; [lia|]. split; [done|].
    intros raw ->. cbn [current_hashes].
    by rewrite hashed_blocks_size; unfold task_fingerprints; rewrite length_map.
  - split; [lia|]. split; [lia|].
    intros raw ->. cbn [current_hashes].
    by rewrite hashed_blocks_size; unfold task_fingerprints; rewrite length_map.
Qed.

Lemma sync_tasks_index_bounds_witness :
  (0 <= get_index (STATE (exec sync_tasks (world_of one_task (State (Some 7%Z) None None None))))
     <= Z.of_nat (size (current_hashes (Text one_task))))%Z.
Proof.
  apply (sync_tasks_index_bounds (world_of one_task (State (Some 7%Z) None None None))).
  vm_compute. discriminate.
Defined.

(** *** C4 *)

(** C4: the code clamps the position into [0, N] and then reads
    [steps[n]], so every position at or past the end of the task list raises
    [IndexError] instead of completing a task. *)
Theorem tasks_complete_past_end_raises (w : world) (steps : list Py.str) (idx : Z) :
  eval load_tasks_raw w = inr steps ->
  (len steps <= idx)%Z ->
  eval (tasks_complete idx) w = inl IndexError.
Proof.
  intros Hsteps Hidx. unfold eval, tasks_complete, bind at 1.
  rewrite load_tasks_raw_run, Hsteps.
  assert (clamp_index idx (len steps) = len steps) as ->.
  { unfold clamp_index. pose proof (len_nonneg steps).
    destruct (Z.ltb_spec idx 0); [lia|]. destruct (Z.ltb_spec (len steps) idx); lia. }
  unfold bind at 1, ensure_completed_tasks, update_STATE.
  unfold bind at 1, ensure_completed_hashes, update_STATE.
  unfold bind at 1. rewrite item_past_end by lia. done.
Qed.

Lemma tasks_complete_past_end_raises_witness :
  eval (tasks_complete 1) (world_of one_task default_state) = inl IndexError.
Proof.
  apply (tasks_complete_past_end_raises _ [Py.lit "A"]).
  - vm_compute. reflexivity.
  - vm_compute. discriminate.
Defined.

(** *** C9 *)

Section Stripped.
Import Py.

Lemma rstrip_suffix (a b : str) : rstrip (a ++ b) = a ++ b -> rstrip b = b.
Proof.
  induction a as [|c a IH]; [done|]. cbn [app rstrip].
  destruct (rstrip (a ++ b)) as [|d r] eqn:E.
  - destruct (isspace c); [discriminate|].
    intros [= H]. symmetry in H. apply app_eq_nil in H as [_ ->]. done.
  - intros [= H]. apply IH. congruence.
Qed.

Lemma lstrip_suffix (s : str) : ∃ a, s = a ++ lstrip s.
Proof.
  induction s as [|c s [a IH]]; [by exists []|]. cbn [lstrip].
  destruct (isspace c); [|by exists []].
  exists (c :: a). cbn [app]. by rewrite <- IH.
Qed.

Lemma lstrip_idemp (s : str) : lstrip (lstrip s) = lstrip s.
Proof.
  induction s as [|c s IH]; [done|]. cbn [lstrip].
  destruct (isspace c) eqn:E; [done|]. cbn [lstrip]. by rewrite E.
Qed.

Lemma strip_idemp (s : str) : strip (strip s) = strip s.
Proof.
  unfold strip.
  destruct (lstrip_suffix (rstrip s)) as [a Ha].
  rewrite (rstrip_suffix a (lstrip (rstrip s))).
  - apply lstrip_idemp.
  - rewrite <- Ha. apply rstrip_idemp.
Qed.

Lemma fold_raw_stripped (ls : list str) tasks cur :
  Forall (fun b => strip b = b) tasks ->
  Forall (fun b => strip b = b) (finish_raw (fold_left raw_line ls (tasks, cur))).
Proof.
  revert tasks cur. induction ls as [|l ls IH]; intros tasks cur Ht;
    cbn [fold_left].
  - destruct cur; cbn [finish_raw]; [done|].
    apply Forall_app. split; [done|]. constructor; [apply strip_idemp|constructor].
  - unfold raw_line at 2. destruct (is_empty (strip (rstrip l))); [|by apply IH].
    destruct cur; apply IH; [done|].
    apply Forall_app. split; [done|]. constructor; [apply strip_idemp|constructor].
Qed.

(** Every block the parser emits is already trimmed. *)
Lemma blocks_stripped (raw : str) : Forall (fun b => strip b = b) (blocks raw).
Proof. rewrite blocks_unfold. apply fold_raw_stripped. constructor. Qed.

(** Whitespace added after the text is dropped by [rstrip]. *)
Lemma rstrip_app_spaces (a ws : str) :
  forallb isspace ws = true -> rstrip (a ++ ws) = rstrip a.
Proof.
  intros Hws. induction a as [|c a IH]; cbn [app rstrip].
  - by apply rstrip_spaces.
  - by rewrite IH.
Qed.

(** Whitespace added before the text is dropped by [lstrip]. *)
Lemma lstrip_app_spaces (ws b : str) :
  forallb isspace ws = true -> lstrip (ws ++ b) = lstrip b.
Proof.
  induction ws as [|c ws IH]; cbn [app lstrip forallb]; [done|].
  intros [-> Hws]%andb_prop. by apply IH.
Qed.

Lemma rstrip_app (a b : str) :
  rstrip (a ++ b) = match rstrip b with [] => rstrip a | _ => a ++ rstrip b end.
Proof.
  induction a as [|c a IH]; cbn [app rstrip].
  - by destruct (rstrip b).
  - rewrite IH. destruct (rstrip b) as [|d r]; [done|].
    destruct (a ++ d :: r) eqn:E; [|done].
    by destruct a.
Qed.

(** Trimming forgets whitespace added at either end. *)
Lemma strip_padding (ws ws' s : str) :
  forallb isspace ws = true -> forallb isspace ws' = true ->
  strip (ws ++ s ++ ws') = strip s.
Proof.
  intros Hws Hws'. unfold strip.
  rewrite app_assoc, rstrip_app_spaces by done.
  rewrite rstrip_app. destruct (rstrip s) as [|d r] eqn:E.
  - by rewrite rstrip_spaces.
  - by rewrite lstrip_app_spaces.
Qed.

End Stripped.

Section Encoding.

Lemma generate_task_hash_exn_encodes (C : Py.str) :
  existsb Py.is_surrogate C = false ->
  generate_task_hash_exn C = inr (generate_task_hash C).
Proof.
  intros H. unfold generate_task_hash_exn, generate_task_hash, Py.encode.
  by rewrite H.
Qed.

Lemma generate_task_hash_exn_raises (C : Py.str) :
  existsb Py.is_surrogate C = true ->
  generate_task_hash_exn C = inl Py.UnicodeEncodeError.
Proof.
  intros H. unfold generate_task_hash_exn, Py.encode. by rewrite H.
Qed.

End Encoding.

(** C9 as stated fails on the code in two ways.  The fingerprint function
    gives no string for every input: on a [str] holding a lone surrogate
    (here U+D800) its [encode] raises [UnicodeEncodeError].  And it hashes
    its argument as given, so content followed by a line feed and the same
    content trimmed have different fingerprints. *)
Lemma fingerprint_partial_and_untrimmed :
  generate_task_hash_exn [55296%N] = inl Py.UnicodeEncodeError ∧
  generate_task_hash_exn (Py.lit "A" ++ [Py.NL]) <>
  generate_task_hash_exn (Py.strip (Py.lit "A" ++ [Py.NL])).
Proof. split; [reflexivity|]. vm_compute. discriminate. Qed.

(** C9, amended: the fingerprint is a function of the content (equal
    contents have equal outcomes).  On content with a surrogate code point
    it raises [UnicodeEncodeError]; on every other content, which includes
    all text decoded from the task file, it returns exactly 8 lowercase
    hexadecimal characters.  It does not trim; its callers do: every block
    the parser emits is already trimmed, so its fingerprint equals the
    fingerprint of its trimmed content; the fingerprint of the trimmed
    content does not change when whitespace (blank lines included) is added
    or removed before or after the content; and the fingerprints derived
    from a task file do not change when a blank line is added or removed
    before or after the text. *)
Theorem fingerprint_shape (C : Py.str) :
  (∀ C', C' = C -> generate_task_hash_exn C' = generate_task_hash_exn C) ∧
  (existsb Py.is_surrogate C = true ->
     generate_task_hash_exn C = inl Py.UnicodeEncodeError) ∧
  (existsb Py.is_surrogate C = false ->
     generate_task_hash_exn C = inr (generate_task_hash C) ∧
     String.length (generate_task_hash C) = 8%nat ∧
     Forall lowercase_hex (list_ascii_of_string (generate_task_hash C))) ∧
  (∀ raw, C ∈ blocks raw ->
     generate_task_hash_exn (Py.strip C) = generate_task_hash_exn C) ∧
  (∀ ws ws', forallb Py.isspace ws = true -> forallb Py.isspace ws' = true ->
     generate_task_hash_exn (Py.strip (ws ++ C ++ ws')) =
     generate_task_hash_exn (Py.strip C)) ∧
  (∀ ws, Py.NL ∉ ws -> blank ws ->
     hashed_blocks (ws ++ Py.NL :: C) = hashed_blocks C ∧
     hashed_blocks (C ++ Py.NL :: ws) = hashed_blocks C).
Proof.
  split; [|split; [|split; [|split; [|split]]]].
  - by intros C' ->.
  - apply generate_task_hash_exn_raises.
  - intros H. split; [by apply generate_task_hash_exn_encodes|]. split.
    + unfold generate_task_hash. apply prefix_str_length.
      rewrite hexdigest_length. lia.
    + unfold generate_task_hash. apply prefix_str_Forall, hex_lowercase.
  - intros raw Hin. pose proof (blocks_stripped raw) as Hall.
    rewrite Forall_forall in Hall. by rewrite (Hall C Hin).
  - intros ws ws' Hws Hws'. by rewrite strip_padding.
  - intros ws Hnl Hb. split.
    + by apply hashed_blocks_leading_blank.
    + by apply hashed_blocks_trailing_blank.
Qed.

Lemma fingerprint_shape_witness :
  generate_task_hash_exn [57343%N] = inl Py.UnicodeEncodeError ∧
  (generate_task_hash_exn (Py.lit "Task A") =
     inr (generate_task_hash (Py.lit "Task A")) ∧
   String.length (generate_task_hash (Py.lit "Task A")) = 8%nat ∧
   Forall lowercase_hex
     (list_ascii_of_string (generate_task_hash (Py.lit "Task A")))) ∧
  generate_task_hash_exn
    (Py.strip ([Py.NL; Py.NL] ++ Py.lit "Task A" ++ [Py.NL])) =
  generate_task_hash_exn (Py.strip (Py.lit "Task A")) ∧
  (hashed_blocks ([] ++ Py.NL :: comment_A_B) = hashed_blocks comment_A_B ∧
   hashed_blocks (comment_A_B ++ Py.NL :: []) = hashed_blocks comment_A_B).
Proof.
  split; [|split; [|split]].
  - apply (proj1 (proj2 (fingerprint_shape [57343%N]))). reflexivity.
  - apply (proj1 (proj2 (proj2 (fingerprint_shape (Py.lit "Task A"))))).
    reflexivity.
  - apply (proj1 (proj2 (proj2 (proj2 (proj2
             (fingerprint_shape (Py.lit "Task A"))))))); reflexivity.
  - apply (proj2 (proj2 (proj2 (proj2 (proj2 (fingerprint_shape comment_A_B)))))).
    + apply (bool_decide_unpack _). vm_compute. exact I.
    + reflexivity.
Defined.

(** *** C10 *)

(** C10: completion marking and reconciliation use different index spaces.
    [tasks_complete] records the fingerprint of the block at the clamped
    position of the raw parse, where comment blocks take positions;
    reconciliation numbers only the blocks that do not start with the
    comment marker.  On the blocks [# c], [A], completing position 1 and
    reconciling leaves [completed_tasks] equal to the set with 0 alone. *)
Theorem complete_and_reconcile_index_spaces :
  (∀ (w : world) (steps : list Py.str) (idx : Z) (task : Py.str),
     eval load_tasks_raw w = inr steps ->
     steps !! Z.to_nat (clamp_index idx (len steps)) = Some task ->
     completed_hashes (STATE (exec (tasks_complete idx) w)) =
       Some ({[generate_task_hash task]} ∪ get_completed_hashes (STATE w)) ∧
     completed_tasks (STATE (exec (tasks_complete idx) w)) =
       Some ({[clamp_index idx (len steps)]} ∪ get_completed_tasks (STATE w))) ∧
  (∀ raw, hashed_blocks raw = enum_from 0 (task_fingerprints (blocks raw))) ∧
  completed_tasks
    (STATE (exec sync_tasks
              (exec (tasks_complete 1) (world_of comment_then_A default_state)))) =
    Some {[ 0%Z ]}.
Proof.
  split; [|split].
  - intros w steps idx task Hsteps Htask. unfold exec.
    by rewrite (tasks_complete_in_range w steps idx task).
  - apply hashed_blocks_blocks.
  - vm_compute. reflexivity.
Qed.

Lemma complete_and_reconcile_index_spaces_witness :
  completed_hashes
    (STATE (exec (tasks_complete 1) (world_of comment_then_A default_state))) =
    Some ({[generate_task_hash (Py.lit "A")]} ∪ ∅) ∧
  completed_tasks
    (STATE (exec (tasks_complete 1) (world_of comment_then_A default_state))) =
    Some ({[ 1%Z ]} ∪ ∅).
Proof.
  apply (proj1 complete_and_reconcile_index_spaces
           (world_of comment_then_A default_state)
           [Py.lit "# c"; Py.lit "A"] 1%Z (Py.lit "A")).
  - vm_compute. reflexivity.
  - reflexivity.
Defined.

(** *** C7 *)

Section Uncomplete.

Lemma tasks_uncomplete_run (w : world) (steps : list Py.str) (idx : Z) :
  eval load_tasks_raw w = inr steps ->
  (clamp_index idx (len steps) ∉ get_completed_tasks (STATE w) ->
   tasks_uncomplete idx w = (inr (AlreadyIncomplete (clamp_index idx (len steps))), w)) ∧
  (clamp_index idx (len steps) ∈ get_completed_tasks (STATE w) ->
   exec (tasks_uncomplete idx) w =
     let s' := set_completed_tasks
                 (get_completed_tasks (STATE w) ∖ {[clamp_index idx (len steps)]})
                 (STATE w) in
     World (TASKS_PATH w) (RULES_PATH w) s' (Some s')).
Proof.
  intros Hsteps. unfold exec, tasks_uncomplete.
  rewrite !bind_run, load_tasks_raw_run, Hsteps.
  set (n := clamp_index idx (len steps)).
  rewrite !bind_run. unfold gets at 1 3, get_completed_tasks.
  destruct (completed_tasks (STATE w)) as [done|]; cbn [default].
  - destruct (decide (n ∈ done)) as [Hin|Hout]; split; try done.
    intros _. rewrite bind_run. unfold update_STATE at 1.
    rewrite bind_run. unfold gets at 1.
    rewrite bind_run. unfold save_state at 1.
    rewrite bind_run, item_run.
    cbn [TASKS_PATH RULES_PATH STATE STATE_PATH].
    by destruct (eval (item steps n) _).
  - split; [done|]. intros H. by apply elem_of_empty in H.
Qed.

(** The clamp admits the position N one past the last block.  When N is in
    [completed_tasks], [tasks_uncomplete] removes it and saves, and then
    raises [IndexError] at [steps[n]]: the off-by-one of [tasks_complete],
    here after the state was written. *)
Lemma tasks_uncomplete_at_end_raises (w : world) (steps : list Py.str) (idx : Z) :
  eval load_tasks_raw w = inr steps ->
  (len steps <= idx)%Z ->
  len steps ∈ get_completed_tasks (STATE w) ->
  tasks_uncomplete idx w =
    (inl IndexError,
     let s' := set_completed_tasks
                 (get_completed_tasks (STATE w) ∖ {[len steps]}) (STATE w) in
     World (TASKS_PATH w) (RULES_PATH w) s' (Some s')).
Proof.
  intros Hsteps Hidx. unfold tasks_uncomplete.
  rewrite !bind_run, load_tasks_raw_run, Hsteps.
  assert (clamp_index idx (len steps) = len steps) as ->.
  { unfold clamp_index. pose proof (len_nonneg steps).
    destruct (Z.ltb_spec idx 0); [lia|]. destruct (Z.ltb_spec (len steps) idx); lia. }
  rewrite !bind_run. unfold gets at 1, get_completed_tasks.
  destruct (completed_tasks (STATE w)) as [done|]; cbn [default].
  - intros Hin. destruct (decide (len steps ∈ done)) as [_|Hout]; [|done].
    rewrite bind_run. unfold update_STATE at 1.
    rewrite bind_run. unfold gets at 1.
    rewrite bind_run. unfold save_state at 1.
    rewrite bind_run, item_past_end by lia.
    by cbn [TASKS_PATH RULES_PATH STATE STATE_PATH].
  - intros H. by apply elem_of_empty in H.
Qed.

(** After the task file shrank from two blocks to one, position 1 is still
    recorded as completed: un-completing it writes the state and raises. *)
Lemma tasks_uncomplete_at_end_example :
  tasks_uncomplete 1
    (world_of one_task (set_completed_tasks {[ 1%Z ]} default_state)) =
    (inl IndexError,
     let s' := set_completed_tasks
                 (get_completed_tasks (set_completed_tasks {[ 1%Z ]} default_state)
                    ∖ {[ len [Py.lit "A"] ]})
                 (set_completed_tasks {[ 1%Z ]} default_state) in
     World (Text one_task) Absent s' (Some s')).
Proof.
  apply (tasks_uncomplete_at_end_raises
           (world_of one_task (set_completed_tasks {[ 1%Z ]} default_state))
           [Py.lit "A"] 1%Z).
  - vm_compute. reflexivity.
  - vm_compute. discriminate.
  - apply (bool_decide_unpack _). vm_compute. exact I.
Qed.

End Uncomplete.

(** C7: the code does not do what the claim says of reconciliation.  On the
    blocks [# c], [A] (default state), [tasks_complete 1] and then
    [tasks_uncomplete 1] leave the fingerprint of A in [completed_hashes],
    and the task file is not changed; yet [sync_tasks] does not put
    position 1 back into [completed_tasks].  [tasks_uncomplete] counts
    positions over all blocks, reconciliation over the blocks that are not
    comments, so reconciliation marks position 0.  The report of
    [sync_tasks] shows the mismatch itself: one task, one completed task,
    and its only row is task A at position 1, not completed and with no
    recorded fingerprint. *)
Theorem uncompleted_position_not_restored :
  eval (tasks_uncomplete 1)
    (exec (tasks_complete 1) (world_of comment_then_A default_state)) =
    inr (Uncompleted 1 (Py.lit "A")) ∧
  generate_task_hash (Py.lit "A") ∈
    get_completed_hashes
      (STATE (exec (tasks_uncomplete 1)
                (exec (tasks_complete 1) (world_of comment_then_A default_state)))) ∧
  (1%Z ∉
     get_completed_tasks
       (STATE (exec sync_tasks
                 (exec (tasks_uncomplete 1)
                    (exec (tasks_complete 1)
                       (world_of comment_then_A default_state)))))) ∧
  0%Z ∈
    get_completed_tasks
      (STATE (exec sync_tasks
                (exec (tasks_uncomplete 1)
                   (exec (tasks_complete 1)
                      (world_of comment_then_A default_state))))) ∧
  eval sync_tasks
    (exec (tasks_uncomplete 1)
       (exec (tasks_complete 1) (world_of comment_then_A default_state))) =
    inr (Synced 1 1 0 [(1%Z, false, Py.lit "A", None)]).
Proof.
  split; [vm_compute; reflexivity|]. split; [|split; [|split]].
  - apply (bool_decide_unpack _). vm_compute. exact I.
  - apply (bool_decide_unpack _). vm_compute. exact I.
  - apply (bool_decide_unpack _). vm_compute. exact I.
  - vm_compute. reflexivity.
Qed.

(** What [tasks_uncomplete] does to the state when the task file can be
    read: it removes the clamped position n from [completed_tasks] and
    saves, leaving the index, [completed_hashes] and [task_hashes]
    unchanged; if n is not in [completed_tasks] it reports that the task is
    already incomplete and changes nothing.  A following reconciliation on
    the unchanged task file has n in [completed_tasks] exactly when the
    fingerprint that reconciliation assigns to position n is in
    [completed_hashes]. *)
Lemma tasks_uncomplete_frame (w : world) (steps : list Py.str) (idx : Z) :
  eval load_tasks_raw w = inr steps ->
  TASKS_PATH (exec (tasks_uncomplete idx) w) = TASKS_PATH w ∧
  index (STATE (exec (tasks_uncomplete idx) w)) = index (STATE w) ∧
  completed_hashes (STATE (exec (tasks_uncomplete idx) w)) =
    completed_hashes (STATE w) ∧
  task_hashes (STATE (exec (tasks_uncomplete idx) w)) = task_hashes (STATE w) ∧
  (clamp_index idx (len steps) ∈ get_completed_tasks (STATE w) ->
   get_completed_tasks (STATE (exec (tasks_uncomplete idx) w)) =
     get_completed_tasks (STATE w) ∖ {[clamp_index idx (len steps)]} ∧
   STATE_PATH (exec (tasks_uncomplete idx) w) =
     Some (STATE (exec (tasks_uncomplete idx) w))) ∧
  (clamp_index idx (len steps) ∉ get_completed_tasks (STATE w) ->
   tasks_uncomplete idx w =
     (inr (AlreadyIncomplete (clamp_index idx (len steps))), w)) ∧
  (clamp_index idx (len steps) ∈
     get_completed_tasks (STATE (exec sync_tasks (exec (tasks_uncomplete idx) w))) ↔
   ∃ h, current_hashes (TASKS_PATH w) !! clamp_index idx (len steps) = Some h ∧
        h ∈ get_completed_hashes (STATE w)).
Proof.
  intros Hsteps.
  destruct (tasks_uncomplete_run w steps idx Hsteps) as [Hout Hin].
  set (n := clamp_index idx (len steps)) in *.
  assert (TASKS_PATH (exec (tasks_uncomplete idx) w) = TASKS_PATH w ∧
          index (STATE (exec (tasks_uncomplete idx) w)) = index (STATE w) ∧
          completed_hashes (STATE (exec (tasks_uncomplete idx) w)) =
            completed_hashes (STATE w) ∧
          task_hashes (STATE (exec (tasks_uncomplete idx) w)) =
            task_hashes (STATE w)) as (H1 & H2 & H3 & H4).
  { destruct (decide (n ∈ get_completed_tasks (STATE w))) as [H|H].
    - by rewrite (Hin H).
    - unfold exec. by rewrite (Hout H). }
  repeat (split; [done|]). split; [|split; [done|]].
  - intros H. by rewrite (Hin H).
  - rewrite sync_tasks_exec. cbn [STATE].
    rewrite reconciled_completed_tasks, H1.
    unfold get_completed_hashes. by rewrite H3.
Qed.

Lemma tasks_uncomplete_frame_witness :
  get_completed_tasks
    (STATE (exec (tasks_uncomplete 0)
              (exec (tasks_complete 0) (world_of one_task default_state)))) =
  get_completed_tasks (STATE (exec (tasks_complete 0) (world_of one_task default_state)))
    ∖ {[ clamp_index 0 (len [Py.lit "A"]) ]} ∧
  STATE_PATH (exec (tasks_uncomplete 0)
                (exec (tasks_complete 0) (world_of one_task default_state))) =
  Some (STATE (exec (tasks_uncomplete 0)
                 (exec (tasks_complete 0) (world_of one_task default_state)))).
Proof.
  apply (proj1 (proj2 (proj2 (proj2 (proj2
           (tasks_uncomplete_frame
              (exec (tasks_complete 0) (world_of one_task default_state))
              [Py.lit "A"] 0%Z ltac:(vm_compute; reflexivity))))))).
  apply (bool_decide_unpack _). vm_compute. exact I.
Defined.

(** *** C8 *)

Section Auto.

Lemma mark_all_frame (ps : list Z) (s : state) :
  index (mark_all ps s) = index s ∧
  completed_hashes (mark_all ps s) = completed_hashes s ∧
  task_hashes (mark_all ps s) = task_hashes s ∧
  get_completed_tasks (mark_all ps s) = list_to_set ps ∪ get_completed_tasks s.
Proof.
  unfold mark_all. revert s. induction ps as [|p ps IH]; intros s; cbn [fold_left].
  - repeat split. cbn. by rewrite (left_id_L ∅ (∪)).
  - destruct (IH (set_completed_tasks ({[p]} ∪ get_completed_tasks s) s))
      as (-> & -> & -> & ->).
    repeat split. unfold get_completed_tasks at 1.
    cbn [set_completed_tasks completed_tasks default].
    unfold id. apply set_eq. intros x.
    rewrite !elem_of_union, !elem_of_list_to_set, elem_of_cons, elem_of_singleton.
    tauto.
Qed.

Lemma range_bounds (a b : Z) : Forall (fun i => (a <= i < b)%Z) (range a b).
Proof.
  unfold range. apply Forall_forall. intros i Hi.
  apply list_elem_of_fmap in Hi as (k & -> & Hk).
  apply elem_of_seq in Hk. lia.
Qed.

Lemma auto_item_run (steps_raw steps_with_rules : list Py.str)
    (acc : list (Z * Py.str) * list (Z * Py.str)) (i : Z) (w : world) :
  List.length steps_with_rules = List.length steps_raw ->
  (0 <= i < len steps_raw)%Z ->
  ∃ acc',
    auto_item steps_raw steps_with_rules acc i w =
      (inr acc',
       World (TASKS_PATH w) (RULES_PATH w)
         (set_completed_tasks ({[i]} ∪ get_completed_tasks (STATE w)) (STATE w))
         (STATE_PATH w)) ∧
    map fst acc'.1 = map fst acc.1 ++ [i].
Proof.
  intros Hlen Hi. destruct acc as [tasks_to_execute execution_results].
  unfold auto_item.
  assert (len steps_with_rules = len steps_raw) as Hlen'
    by (unfold len; by rewrite Hlen).
  rewrite Hlen'. destruct (Z.ltb_spec i (len steps_raw)); [|lia].
  destruct (lookup_lt_is_Some_2 steps_raw (Z.to_nat i)) as [task Htask];
    [unfold len in Hi; lia|].
  destruct (lookup_lt_is_Some_2 steps_with_rules (Z.to_nat i)) as [full Hfull];
    [unfold len in Hi; lia|].
  rewrite bind_run, (item_in_range steps_raw i task) by (done || lia).
  rewrite !bind_run, (item_in_range steps_with_rules i full) by (done || lia).
  eexists. split; [reflexivity|]. cbn [fst]. by rewrite map_app.
Qed.

Lemma auto_loop_run (steps_raw steps_with_rules : list Py.str) (ps : list Z)
    (acc : list (Z * Py.str) * list (Z * Py.str)) (w : world) :
  List.length steps_with_rules = List.length steps_raw ->
  Forall (fun i => (0 <= i < len steps_raw)%Z) ps ->
  ∃ acc',
    for_each ps (auto_item steps_raw steps_with_rules) acc w =
      (inr acc',
       World (TASKS_PATH w) (RULES_PATH w) (mark_all ps (STATE w)) (STATE_PATH w)) ∧
    map fst acc'.1 = map fst acc.1 ++ ps.
Proof.
  intros Hlen Hps. revert acc w.
  induction Hps as [|p ps Hp _ IH]; intros acc w; cbn [for_each].
  - exists acc. split; [by destruct w|]. by rewrite app_nil_r.
  - destruct (auto_item_run steps_raw steps_with_rules acc p w Hlen Hp)
      as (acc1 & Hrun & Hfst).
    rewrite bind_run, Hrun.
    destruct (IH acc1 (World (TASKS_PATH w) (RULES_PATH w)
                (set_completed_tasks ({[p]} ∪ get_completed_tasks (STATE w)) (STATE w))
                (STATE_PATH w))) as (acc2 & Hrun2 & Hfst2).
    exists acc2. split; [exact Hrun2|].
    rewrite Hfst2, Hfst, <- app_assoc. done.
Qed.

Lemma resolved_count_code (count : option Z) (remaining : Z) :
  (let c := match count with None => remaining | Some c => c end in
   if (remaining <? c)%Z then remaining else c) = resolved_count count remaining.
Proof.
  unfold resolved_count. destruct count as [c|];
    cbn [default from_option]; unfold id; cbv zeta.
  - destruct (Z.ltb_spec remaining c); lia.
  - destruct (Z.ltb_spec remaining remaining); lia.
Qed.

End Auto.

Section AutoRun.

Lemma with_completed_tasks_frame (s : state) :
  index (with_completed_tasks s) = index s ∧
  completed_hashes (with_completed_tasks s) = completed_hashes s ∧
  task_hashes (with_completed_tasks s) = task_hashes s ∧
  get_completed_tasks (with_completed_tasks s) = get_completed_tasks s.
Proof. destruct s as [i [ct|] ch th]; repeat split. Qed.

Lemma tasks_auto_run (w : world) (steps : list Py.str) (count : option Z) :
  eval load_tasks_raw w = inr steps ->
  ((len steps <= get_index (STATE w))%Z ->
   tasks_auto count w = (inr AllAlreadyCompleted, w)) ∧
  ((get_index (STATE w) < len steps)%Z ->
   (resolved_count count (len steps - get_index (STATE w)) <= 0)%Z ->
   tasks_auto count w =
     (inr InvalidCount,
      World (TASKS_PATH w) (RULES_PATH w) (with_completed_tasks (STATE w))
        (STATE_PATH w))) ∧
  ((0 <= get_index (STATE w) < len steps)%Z ->
   (0 < resolved_count count (len steps - get_index (STATE w)))%Z ->
   ∃ msg,
     tasks_auto count w =
       (inr msg,
        let s' :=
          set_index
            (get_index (STATE w) +
             resolved_count count (len steps - get_index (STATE w)))
            (mark_all
               (range (get_index (STATE w))
                  (get_index (STATE w) +
                   resolved_count count (len steps - get_index (STATE w))))
               (with_completed_tasks (STATE w))) in
        World (TASKS_PATH w) (RULES_PATH w) s' (Some s')) ∧
     touched msg =
       range (get_index (STATE w))
         (get_index (STATE w) +
          resolved_count count (len steps - get_index (STATE w)))).
Proof.
  intros Hsteps.
  destruct (load_tasks_run w steps Hsteps) as (swr & Hswr & Hlen).
  remember (tasks_auto count w) as r eqn:Er.
  unfold tasks_auto in Er.
  rewrite bind_run, Hswr, bind_run, load_tasks_raw_run, Hsteps, bind_run in Er.
  unfold gets at 1 in Er. cbv beta iota in Er.
  pose proof (resolved_count_code count (len steps - get_index (STATE w))) as Hc.
  cbv zeta in Hc. rewrite Hc in Er. clear Hc.
  set (idx := get_index (STATE w)) in *.
  set (N := len steps) in *.
  set (c := resolved_count count (N - idx)) in *.
  destruct (Z.leb_spec N idx) as [Hdone|Hmore].
  { split; [done|]. split; intros; lia. }
  split; [intros; lia|].
  rewrite bind_run in Er. unfold ensure_completed_tasks, update_STATE at 1 in Er.
  cbv beta iota in Er.
  destruct (Z.leb_spec c 0) as [Hbad|Hgood].
  { split; [|intros; lia]. done. }
  split; [intros; lia|]. intros [Hidx _] _.
  destruct (auto_loop_run steps swr (range idx (idx + c)) ([], [])
              (World (TASKS_PATH w) (RULES_PATH w) (with_completed_tasks (STATE w))
                 (STATE_PATH w)) Hlen)
    as ([tte er] & Hloop & Hfst).
  { eapply Forall_impl; [apply range_bounds|]. cbn beta. intros i Hi.
    assert (c <= N - idx)%Z by (unfold c, resolved_count; lia). lia. }
  rewrite bind_run, Hloop in Er. cbn [TASKS_PATH RULES_PATH STATE STATE_PATH] in Er.
  rewrite bind_run in Er. unfold update_STATE at 1 in Er.
  rewrite bind_run in Er. unfold gets at 1 in Er.
  rewrite bind_run in Er. unfold save_state at 1 in Er.
  cbn [TASKS_PATH RULES_PATH STATE STATE_PATH] in Er.
  cbn [fst app map] in Hfst.
  destruct (c =? N - idx)%Z; subst r; eexists; (split; [reflexivity|]); exact Hfst.
Qed.

End AutoRun.

(** C8 as stated fails on the code: with the index already at the end of
    the task list the count resolves to 0, yet the outcome is the
    all-tasks-completed message, not the invalid-count one. *)
Lemma tasks_auto_at_end_is_not_invalid :
  (resolved_count None (len [Py.lit "A"] - get_index all_done) <= 0)%Z ∧
  eval (tasks_auto None) (world_of one_task all_done) = inr AllAlreadyCompleted ∧
  eval (tasks_auto None) (world_of one_task all_done) <> inr InvalidCount.
Proof.
  split; [vm_compute; discriminate|].
  split; [vm_compute; reflexivity | vm_compute; discriminate].
Qed.

(** C8, amended: with N tasks in the raw parse and the index at idx,
    [tasks_auto] first answers that all tasks are completed, without any
    effect, when idx >= N.  Otherwise it resolves the count to
    [min(count ?? remaining, remaining)], remaining = N - idx.  If that is
    not positive it reports an invalid count; the index, the completion
    sets and the state file are as before.  If it is positive and idx is not
    negative, it marks the positions idx .. idx + count - 1 complete, moves
    the index to idx + count, saves, and reports exactly these positions as
    touched. *)
Theorem tasks_auto_spec (w : world) (steps : list Py.str) (count : option Z) :
  eval load_tasks_raw w = inr steps ->
  ((len steps <= get_index (STATE w))%Z ->
   tasks_auto count w = (inr AllAlreadyCompleted, w)) ∧
  ((get_index (STATE w) < len steps)%Z ->
   (resolved_count count (len steps - get_index (STATE w)) <= 0)%Z ->
   eval (tasks_auto count) w = inr InvalidCount ∧
   get_index (STATE (exec (tasks_auto count) w)) = get_index (STATE w) ∧
   get_completed_tasks (STATE (exec (tasks_auto count) w)) =
     get_completed_tasks (STATE w) ∧
   completed_hashes (STATE (exec (tasks_auto count) w)) = completed_hashes (STATE w) ∧
   task_hashes (STATE (exec (tasks_auto count) w)) = task_hashes (STATE w) ∧
   STATE_PATH (exec (tasks_auto count) w) = STATE_PATH w) ∧
  ((0 <= get_index (STATE w) < len steps)%Z ->
   (0 < resolved_count count (len steps - get_index (STATE w)))%Z ->
   ∃ msg,
     eval (tasks_auto count) w = inr msg ∧
     touched msg =
       range (get_index (STATE w))
         (get_index (STATE w) +
          resolved_count count (len steps - get_index (STATE w))) ∧
     get_index (STATE (exec (tasks_auto count) w)) =
       (get_index (STATE w) +
        resolved_count count (len steps - get_index (STATE w)))%Z ∧
     get_completed_tasks (STATE (exec (tasks_auto count) w)) =
       list_to_set
         (range (get_index (STATE w))
            (get_index (STATE w) +
             resolved_count count (len steps - get_index (STATE w))))
       ∪ get_completed_tasks (STATE w) ∧
     completed_hashes (STATE (exec (tasks_auto count) w)) =
       completed_hashes (STATE w) ∧
     task_hashes (STATE (exec (tasks_auto count) w)) = task_hashes (STATE w) ∧
     STATE_PATH (exec (tasks_auto count) w) =
       Some (STATE (exec (tasks_auto count) w))).
Proof.
  intros Hsteps.
  destruct (tasks_auto_run w steps count Hsteps) as (Hdone & Hbad & Hgood).
  split; [exact Hdone|]. split.
  - intros Hidx Hc. unfold eval, exec. rewrite (Hbad Hidx Hc).
    cbn [fst snd STATE STATE_PATH].
    destruct (with_completed_tasks_frame (STATE w)) as (Hi & -> & -> & ->).
    unfold get_index. by rewrite Hi.
  - intros Hidx Hc. destruct (Hgood Hidx Hc) as (msg & Hrun & Htouched).
    exists msg. unfold eval, exec. rewrite Hrun.
    cbn [fst snd STATE STATE_PATH].
    destruct (with_completed_tasks_frame (STATE w)) as (Hi & Hh & Ht & Hc0).
    destruct (mark_all_frame
                (range (get_index (STATE w))
                   (get_index (STATE w) +
                    resolved_count count (len steps - get_index (STATE w))))
                (with_completed_tasks (STATE w))) as (Hm1 & Hm2 & Hm3 & Hm4).
    repeat (split; [done|]).
    unfold get_completed_tasks at 1.
    cbn [set_index completed_tasks completed_hashes task_hashes].
    fold (get_completed_tasks
            (mark_all
               (range (get_index (STATE w))
                  (get_index (STATE w) +
                   resolved_count count (len steps - get_index (STATE w))))
               (with_completed_tasks (STATE w)))).
    rewrite Hm2, Hm3, Hm4, Hh, Ht, Hc0. done.
Qed.

(** The scenario of C8: a batch advance of 2 from index 0 of 3 tasks. *)
Lemma tasks_auto_spec_witness :
  ∃ msg,
    eval (tasks_auto (Some 2%Z)) (world_of three_tasks default_state) = inr msg ∧
    touched msg = [0%Z; 1%Z] ∧
    get_index (STATE (exec (tasks_auto (Some 2%Z)) (world_of three_tasks default_state)))
      = 2%Z ∧
    get_completed_tasks
      (STATE (exec (tasks_auto (Some 2%Z)) (world_of three_tasks default_state)))
      = list_to_set [0%Z; 1%Z] ∪ ∅.
Proof.
  destruct (proj2 (proj2 (tasks_auto_spec (world_of three_tasks default_state)
              [Py.lit "a"; Py.lit "b"; Py.lit "c"] (Some 2%Z)
              ltac:(vm_compute; reflexivity)))
              ltac:(vm_compute; split; [discriminate | reflexivity])
              ltac:(vm_compute; reflexivity))
    as (msg & H1 & H2 & H3 & H4 & _).
  exists msg. repeat split; assumption.
Defined.

(** * Further properties of the code *)

(** ** The raw parser *)

Section Blocks.
Import Py.

Lemma split_nl_no_nl (s : str) : Forall (fun l => NL ∉ l) (split_nl s).
Proof.
  induction s as [|c s IH]; cbn [split_nl].
  - constructor; [apply not_elem_of_nil|constructor].
  - destruct (N.eqb_spec c NL) as [->|Hc].
    + constructor; [apply not_elem_of_nil|exact IH].
    + destruct (split_nl s) as [|l ls].
      * constructor; [|constructor].
        apply not_elem_of_cons. split; [congruence|apply not_elem_of_nil].
      * apply Forall_cons in IH as [Hl Hls]. constructor; [|exact Hls].
        apply not_elem_of_cons. split; [congruence|exact Hl].
Qed.

Lemma rstrip_prefix (s : str) : ∃ b, s = rstrip s ++ b.
Proof.
  induction s as [|c s [b IH]]; [by exists []|]. cbn [rstrip].
  destruct (rstrip s) as [|d r].
  - destruct (isspace c); [by exists (c :: s)|].
    exists b. cbn [app] in *. by rewrite <- IH.
  - exists b. cbn [app] in *. by rewrite <- IH.
Qed.

Lemma rstrip_no_nl (l : str) : NL ∉ l -> NL ∉ rstrip l.
Proof.
  destruct (rstrip_prefix l) as [b Hb]. intros Hn Hin. apply Hn.
  rewrite Hb. apply elem_of_app. by left.
Qed.

Lemma lstrip_no_nl (l : str) : NL ∉ l -> NL ∉ lstrip l.
Proof.
  destruct (lstrip_suffix l) as [a Ha]. intros Hn Hin. apply Hn.
  rewrite Ha. apply elem_of_app. by right.
Qed.

Lemma strip_nil_spaces (s : str) : strip s = [] -> forallb isspace s = true.
Proof.
  unfold strip. intros H. apply lstrip_nil, rstrip_spaces in H.
  rewrite rstrip_idemp in H. by apply rstrip_nil.
Qed.

Lemma not_blank_stored (l : str) :
  NL ∉ l -> ¬ blank l -> stored_line (rstrip l).
Proof.
  intros Hn Hb. split; [by apply rstrip_no_nl|]. split; [|apply rstrip_idemp].
  intros E. apply Hb. unfold blank. by rewrite E.
Qed.

Lemma stored_line_lstrip (l : str) :
  stored_line l -> stored_line (lstrip l) ∧ lstrip l <> [].
Proof.
  intros (Hn & Hne & Hr).
  assert (lstrip l <> []) as Hl.
  { intros E. apply lstrip_nil, rstrip_spaces in E. congruence. }
  split; [|done]. split; [by apply lstrip_no_nl|]. split; [done|].
  destruct (lstrip_suffix l) as [a Ha].
  apply (rstrip_suffix a). by rewrite <- Ha.
Qed.

Lemma lstrip_app_nonspace (a b : str) :
  lstrip a <> [] -> lstrip (a ++ b) = lstrip a ++ b.
Proof.
  induction a as [|c a IH]; [done|]. cbn [app lstrip].
  destruct (isspace c); [exact IH|done].
Qed.

Lemma join_nl_rstrip (ls : list str) :
  Forall stored_line ls -> ls <> [] ->
  rstrip (join_nl ls) = join_nl ls ∧ join_nl ls <> [].
Proof.
  induction 1 as [|l ls Hl Hall IH]; [done|]. intros _.
  destruct Hl as (_ & Hne & Hr).
  destruct ls as [|l' ls]; [done|].
  destruct IH as [IH1 IH2]; [done|].
  change (join_nl (l :: l' :: ls)) with (l ++ NL :: join_nl (l' :: ls)).
  split; [|by destruct l].
  change (l ++ NL :: join_nl (l' :: ls)) with (l ++ [NL] ++ join_nl (l' :: ls)).
  rewrite app_assoc. by apply rstrip_app_fixed.
Qed.

(** The block the parser makes of the lines it collected. *)
Lemma collected_block (l : str) (ls : list str) :
  Forall stored_line (l :: ls) ->
  strip (join_nl (l :: ls)) = join_nl (lstrip l :: ls) ∧
  block_lines (lstrip l :: ls).
Proof.
  intros Hall.
  destruct (join_nl_rstrip (l :: ls) Hall) as [Hr _]; [done|].
  apply Forall_cons in Hall as [Hl Hls].
  destruct (stored_line_lstrip l Hl) as [Hsl Hne].
  split.
  - unfold strip. rewrite Hr. destruct ls as [|l' ls]; [done|].
    change (join_nl (l :: l' :: ls)) with (l ++ NL :: join_nl (l' :: ls)).
    by rewrite lstrip_app_nonspace.
  - split; [by constructor|]. apply lstrip_idemp.
Qed.

Lemma fold_raw_well_formed (ls : list str) tasks cur :
  Forall (fun l => NL ∉ l) ls ->
  Forall well_formed_block tasks ->
  Forall stored_line cur ->
  Forall well_formed_block (finish_raw (fold_left raw_line ls (tasks, cur))).
Proof.
  intros Hls. revert tasks cur.
  induction Hls as [|l ls Hl _ IH]; intros tasks cur Ht Hc; cbn [fold_left].
  - destruct cur as [|c cur]; cbn [finish_raw]; [done|].
    destruct (collected_block c cur Hc) as [-> Hb].
    apply Forall_app. split; [done|]. constructor; [|constructor]. by eexists.
  - destruct (decide (blank l)) as [Hb|Hb].
    + rewrite raw_line_blank by done. destruct cur as [|c cur]; [by apply IH|].
      apply IH; [|constructor].
      destruct (collected_block c cur Hc) as [-> Hbl].
      apply Forall_app. split; [done|]. constructor; [|constructor]. by eexists.
    + rewrite raw_line_not_blank by done. apply IH; [done|].
      apply Forall_app. split; [done|].
      constructor; [by apply not_blank_stored|constructor].
Qed.

Lemma blocks_well_formed (raw : str) : Forall well_formed_block (blocks raw).
Proof.
  rewrite blocks_unfold.
  apply fold_raw_well_formed; [apply split_nl_no_nl|constructor..].
Qed.

Lemma well_formed_blocks_lines (bs : list str) :
  Forall well_formed_block bs ->
  ∃ bss, bs = map join_nl bss ∧ Forall block_lines bss.
Proof.
  induction 1 as [|b bs (ls & Hls & ->) _ (bss & -> & Hbss)]; [by exists []|].
  exists (ls :: bss). split; [done|]. by constructor.
Qed.

Lemma well_formed_block_head (b : str) :
  well_formed_block b ->
  ∃ c l ls, b = join_nl ((c :: l) :: ls) ∧ isspace c = false ∧
            c <> NL ∧ block_lines ((c :: l) :: ls).
Proof.
  intros (ls & Hbl & ->). pose proof Hbl as [Hall Hfirst].
  destruct ls as [|l1 ls]; [done|].
  apply Forall_cons in Hall as [(Hn & Hne & Hr) _].
  destruct l1 as [|c l]; [done|]. exists c, l, ls. split; [done|].
  assert (isspace c = false) as Hc.
  { cbn [lstrip] in Hfirst. destruct (isspace c); [|done].
    pose proof (lstrip_length l) as Hlen. rewrite Hfirst in Hlen.
    cbn [List.length] in Hlen. lia. }
  split; [done|]. split; [|done]. intros ->. by apply Hn; left.
Qed.

Lemma raw_line_blank_finish tasks cur l :
  blank l -> finish_raw (raw_line (tasks, cur) l) = finish_raw (tasks, cur).
Proof. intros Hb. rewrite raw_line_blank by done. by destruct cur. Qed.

End Blocks.

(** X1.  Writing the parsed blocks back, one blank line between two blocks,
    and parsing again gives the same blocks. *)
Theorem blocks_reparse (raw : Py.str) :
  blocks (paragraphs (blocks raw)) = blocks raw.
Proof.
  destruct (well_formed_blocks_lines _ (blocks_well_formed raw)) as (bss & E & Hall).
  rewrite E. destruct bss as [|ls bss]; [reflexivity|].
  by apply blocks_paragraphs.
Qed.

(** X2.  Blank lines (empty or whitespace only) before or after the text
    do not change what the raw parser returns. *)
Theorem blocks_blank_lines (ws raw : Py.str) :
  Py.NL ∉ ws -> blank ws ->
  blocks (ws ++ Py.NL :: raw) = blocks raw ∧
  blocks (raw ++ Py.NL :: ws) = blocks raw.
Proof.
  intros Hnl Hb. rewrite !blocks_unfold, !split_nl_app.
  rewrite (split_nl_line ws) by done. split.
  - cbn [app fold_left]. by rewrite raw_line_blank.
  - rewrite fold_left_app. cbn [fold_left].
    destruct (fold_left raw_line (Py.split_nl raw) ([], [])) as [tasks cur].
    by apply raw_line_blank_finish.
Qed.

Lemma blocks_blank_lines_witness :
  blocks (Py.lit "  " ++ Py.NL :: comment_A_B) = blocks comment_A_B ∧
  blocks (comment_A_B ++ Py.NL :: Py.lit "  ") = blocks comment_A_B.
Proof.
  apply (blocks_blank_lines (Py.lit "  ") comment_A_B).
  - apply (bool_decide_unpack _). vm_compute. exact I.
  - reflexivity.
Defined.

(** X3.  A block of the raw parse is never empty and is already trimmed,
    and the first line shown to the user is never empty; the three comment
    tests of the code (on the first line, on the trimmed task, on the block
    itself) agree on it. *)
Theorem blocks_shape (raw b : Py.str) :
  b ∈ blocks raw ->
  b <> [] ∧
  Py.strip b = b ∧
  Py.first_line b <> [] ∧
  Py.startswith_hash (Py.first_line b) = Py.startswith_hash b ∧
  is_comment b = Py.startswith_hash b.
Proof.
  intros Hin. pose proof (blocks_well_formed raw) as Hall.
  rewrite Forall_forall in Hall. specialize (Hall b Hin).
  destruct (well_formed_block_head b Hall) as (c & l & ls & -> & Hc & Hnl & Hbl).
  pose proof (block_lines_strip _ Hbl) as Hstrip.
  pose proof Hbl as [Hstored Hfirst].
  assert (Py.first_line (Py.join_nl ((c :: l) :: ls)) = c :: l) as Hfl.
  { unfold Py.first_line. rewrite split_nl_join; [|done|].
    - apply Forall_cons in Hstored as [(_ & _ & Hr) _].
      unfold Py.strip. by rewrite Hr.
    - eapply Forall_impl; [exact Hstored|]. by intros x (? & _). }
  assert (Py.startswith_hash (Py.join_nl ((c :: l) :: ls)) =
          Py.startswith_hash (c :: l)) as Hsw by (by destruct ls).
  split; [by destruct ls|]. split; [done|].
  rewrite Hfl. split; [done|]. split; [done|].
  unfold is_comment. by rewrite Hstrip.
Qed.

Lemma blocks_shape_witness :
  Py.lit "Task A" <> [] ∧
  Py.strip (Py.lit "Task A") = Py.lit "Task A" ∧
  Py.first_line (Py.lit "Task A") <> [] ∧
  Py.startswith_hash (Py.first_line (Py.lit "Task A")) =
    Py.startswith_hash (Py.lit "Task A") ∧
  is_comment (Py.lit "Task A") = Py.startswith_hash (Py.lit "Task A").
Proof.
  apply (blocks_shape comment_A_B (Py.lit "Task A")).
  apply (bool_decide_unpack _). vm_compute. exact I.
Defined.

(** X4.  The fingerprint map of reconciliation has exactly the keys
    0 .. N-1, N the number of non-comment blocks of the raw parse, and key k
    holds the fingerprint of the k-th non-comment block. *)
Theorem hashed_blocks_lookup (raw : Py.str) (k : Z) :
  hashed_blocks raw !! k =
    (if (k <? 0)%Z then None
     else task_fingerprints (blocks raw) !! Z.to_nat k) ∧
  (is_Some (hashed_blocks raw !! k) ↔
   (0 <= k < Z.of_nat (size (hashed_blocks raw)))%Z).
Proof.
  assert (hashed_blocks raw !! k =
          (if (k <? 0)%Z then None
           else task_fingerprints (blocks raw) !! Z.to_nat k)) as E.
  { rewrite hashed_blocks_blocks. destruct (Z.ltb_spec k 0).
    - by apply enum_from_lookup_lt.
    - rewrite enum_from_lookup by done. by rewrite Z.sub_0_r. }
  split; [exact E|]. rewrite E, hashed_blocks_size.
  destruct (Z.ltb_spec k 0).
  - split; [by intros [? ?]|lia].
  - rewrite lookup_lt_is_Some. lia.
Qed.

(** ** Rules *)

Section Rules.
Import Py.

Lemma load_rules_eq (w : world) :
  load_rules w =
    (inr (base_rules ++
          match RULES_PATH w with Text raw => strip raw | _ => [] end), w).
Proof.
  unfold load_rules. rewrite bind_run. unfold gets, ret.
  destruct (RULES_PATH w) as [| |raw]; try by rewrite app_nil_r.
  destruct (strip raw); [by rewrite app_nil_r|done].
Qed.

Lemma load_tasks_eq (w : world) :
  load_tasks w =
    (match eval load_tasks_raw w with
     | inl e => inl e
     | inr steps =>
         inr (map (fun task =>
                     (base_rules ++
                      match RULES_PATH w with Text raw => strip raw | _ => [] end)
                     ++ NL :: NL :: task) steps)
     end, w).
Proof.
  unfold load_tasks. rewrite bind_run, load_rules_eq, bind_run, load_tasks_raw_run.
  destruct (eval load_tasks_raw w) as [e|steps]; [done|].
  by destruct (RULES_PATH w) as [| |raw].
Qed.

Lemma first_line_app (l rest : str) :
  NL ∉ l -> first_line (l ++ NL :: rest) = strip l.
Proof.
  intros Hl. unfold first_line. by rewrite split_nl_app, split_nl_line.
Qed.

Lemma first_line_with_rules (user task : str) :
  first_line ((base_rules ++ user) ++ NL :: NL :: task) = first_line base_rules.
Proof.
  assert (∃ a b, base_rules = a ++ NL :: b ∧ NL ∉ a) as (a & b & E & Ha).
  { exists (take 20 base_rules), (drop 21 base_rules). split; [reflexivity|].
    apply (bool_decide_unpack _). vm_compute. exact I. }
  rewrite E, <- !app_assoc. cbn [app]. by rewrite !first_line_app.
Qed.

End Rules.

(** X5.  Loading the rules never fails and never changes anything; the
    result is the fixed safety preamble followed by the trimmed content of
    the rule file (nothing when the file is absent, unreadable or blank).
    The rules are therefore never empty and [show_rules] never answers that
    there are no rules. *)
Theorem load_rules_preamble (w : world) :
  load_rules w =
    (inr (base_rules ++
          match RULES_PATH w with Text raw => Py.strip raw | _ => [] end), w) ∧
  show_rules w =
    (inr (RulesShown
            (base_rules ++
             match RULES_PATH w with Text raw => Py.strip raw | _ => [] end)), w) ∧
  eval show_rules w <> inr NoRules.
Proof.
  assert (show_rules w =
    (inr (RulesShown
            (base_rules ++
             match RULES_PATH w with Text raw => Py.strip raw | _ => [] end)), w))
    as E.
  { unfold show_rules. rewrite bind_run, load_rules_eq.
    by destruct (base_rules ++ _) eqn:E. }
  split; [apply load_rules_eq|]. split; [exact E|].
  unfold eval. by rewrite E.
Qed.

(** X6.  The annotated task list fails exactly as the raw parse fails and
    otherwise has the same tasks at the same positions, each prefixed with
    the rules and a blank line; loading changes nothing. *)
Theorem load_tasks_annotates (w : world) :
  exec load_tasks w = w ∧
  (∀ e, eval load_tasks w = inl e ↔ eval load_tasks_raw w = inl e) ∧
  (∀ steps, eval load_tasks_raw w = inr steps ->
     ∃ rules annotated,
       eval load_rules w = inr rules ∧
       eval load_tasks w = inr annotated ∧
       List.length annotated = List.length steps ∧
       ∀ i task, steps !! i = Some task ->
         annotated !! i = Some (rules ++ Py.NL :: Py.NL :: task)).
Proof.
  pose proof (load_tasks_eq w) as Hl. pose proof (load_rules_eq w) as Hr.
  split; [unfold exec; by rewrite Hl|]. split.
  - intros e. unfold eval at 1. rewrite Hl. cbn [fst].
    destruct (eval load_tasks_raw w) as [e'|steps].
    + split; intros [= ->]; reflexivity.
    + split; intros [=].
  - intros steps E. unfold eval at 1 2. rewrite Hl, Hr, E. cbn [fst].
    eexists _, _. split; [reflexivity|]. split; [reflexivity|].
    split; [by rewrite length_map|].
    intros i task Hi.
    match goal with
    | |- map ?f steps !! i = _ => change (map f steps) with (f <$> steps)
    end.
    rewrite list_lookup_fmap. unfold Py.str in *. by rewrite Hi.
Qed.

Lemma load_tasks_annotates_witness :
  ∃ rules annotated,
    eval load_rules (world_of comment_A_B default_state) = inr rules ∧
    eval load_tasks (world_of comment_A_B default_state) = inr annotated ∧
    List.length annotated = 3%nat ∧
    ∀ i task,
      [Py.lit "# comment"; Py.lit "Task A"; Py.lit "Task B"] !! i = Some task ->
      annotated !! i = Some (rules ++ Py.NL :: Py.NL :: task).
Proof.
  apply (proj2 (proj2 (load_tasks_annotates (world_of comment_A_B default_state)))
           [Py.lit "# comment"; Py.lit "Task A"; Py.lit "Task B"]).
  vm_compute. reflexivity.
Defined.

(** X8.  Every tool that starts by reading the task file fails with the
    error of that read and leaves the in-memory state and the state file
    untouched. *)
Theorem tools_fail_without_effect (w : world) (e : exn) :
  eval load_tasks_raw w = inl e ->
  tasks_peek w = (inl e, w) ∧
  tasks_peek_with_rules w = (inl e, w) ∧
  (∀ b, tasks_next b w = (inl e, w)) ∧
  (∀ b, tasks_next_with_rules b w = (inl e, w)) ∧
  (∀ i, tasks_goto i w = (inl e, w)) ∧
  (∀ i, tasks_start i w = (inl e, w)) ∧
  (∀ i, tasks_complete i w = (inl e, w)) ∧
  (∀ i, tasks_uncomplete i w = (inl e, w)) ∧
  (∀ c, tasks_auto c w = (inl e, w)) ∧
  show_task_table w = (inl e, w) ∧
  explain_tasks_detailed w = (inl e, w).
Proof.
  intros H.
  assert (load_tasks w = (inl e, w)) as H' by (by rewrite load_tasks_eq, H).
  repeat split; intros;
    unfold tasks_peek, tasks_peek_with_rules, tasks_next, tasks_next_with_rules,
      tasks_goto, tasks_start, tasks_complete, tasks_uncomplete, tasks_auto,
      show_task_table, explain_tasks_detailed;
    rewrite bind_run; first [ by rewrite load_tasks_raw_run, H | by rewrite H' ].
Qed.

Lemma tools_fail_without_effect_witness :
  tasks_peek no_task_file = (inl FileNotFoundError, no_task_file).
Proof.
  apply (tools_fail_without_effect no_task_file FileNotFoundError).
  reflexivity.
Defined.

(** ** Navigator *)

Section Navigator.

Lemma item_nonneg {A} (l : list A) (i : Z) (w : world) :
  (0 <= i)%Z ->
  item l i w =
    (match l !! Z.to_nat i with Some a => inr a | None => inl IndexError end, w).
Proof.
  intros Hi. unfold item.
  destruct (Z.ltb_spec i 0); [lia|]. destruct (Z.ltb_spec i 0); [lia|].
  by destruct (l !! Z.to_nat i).
Qed.

Lemma clamp_index_fixed (idx n : Z) :
  (0 <= idx <= n)%Z -> clamp_index idx n = idx.
Proof.
  intros H. unfold clamp_index.
  destruct (Z.ltb_spec idx 0); [lia|]. destruct (Z.ltb_spec n idx); lia.
Qed.

Lemma get_index_set_index (v : Z) (s : state) : get_index (set_index v s) = v.
Proof. reflexivity. Qed.

Lemma len_positive (w : world) (steps : list Py.str) :
  eval load_tasks_raw w = inr steps -> (0 < len steps)%Z.
Proof.
  intros H. apply load_tasks_raw_nonempty in H.
  destruct steps; [done|]. unfold len. cbn [List.length]. lia.
Qed.

Lemma clamp_index_below (idx n : Z) :
  (0 < n)%Z -> (idx < n)%Z -> (clamp_index idx n < n)%Z.
Proof.
  intros Hn H. unfold clamp_index.
  destruct (Z.ltb_spec idx 0); [lia|]. destruct (Z.ltb_spec n idx); lia.
Qed.

Lemma clamp_index_at_end (idx n : Z) :
  (0 < n)%Z -> (n <= clamp_index idx n)%Z <-> (n <= idx)%Z.
Proof.
  intros Hn. unfold clamp_index.
  destruct (Z.ltb_spec idx 0); [lia|]. destruct (Z.ltb_spec n idx); lia.
Qed.

Lemma peek_body_run (mk : Z -> Py.str -> peek_msg) (steps : list Py.str)
    (w : world) :
  (update_STATE (fun s => set_index (clamp_index (get_index s) (len steps)) s) ;;;
   current_index <- gets (fun w => get_index (STATE w)) ;;
   if (len steps <=? current_index)%Z then ret AllDone
   else
     task <- item steps current_index ;;
     ret (mk current_index (Py.first_line task))) w =
  (if (len steps <=? clamp_index (get_index (STATE w)) (len steps))%Z
   then inr AllDone
   else match steps !! Z.to_nat (clamp_index (get_index (STATE w)) (len steps)) with
        | Some task =>
            inr (mk (clamp_index (get_index (STATE w)) (len steps))
                   (Py.first_line task))
        | None => inl IndexError
        end,
   World (TASKS_PATH w) (RULES_PATH w)
     (set_index (clamp_index (get_index (STATE w)) (len steps)) (STATE w))
     (STATE_PATH w)).
Proof.
  pose proof (clamp_index_range (get_index (STATE w)) (len steps)
                (len_nonneg steps)) as [Hn _].
  rewrite bind_run. unfold update_STATE at 1. rewrite bind_run. unfold gets at 1.
  cbn [STATE]. unfold get_index at 1 3. cbn [set_index index default from_option].
  unfold id.
  set (n := clamp_index (get_index (STATE w)) (len steps)) in *.
  destruct (len steps <=? n)%Z; [done|].
  rewrite bind_run, item_nonneg by done.
  by destruct (steps !! Z.to_nat n).
Qed.

Lemma next_body_run (mk : Z -> Py.str -> next_msg) (steps : list Py.str)
    (w : world) :
  (update_STATE (fun s => set_index (clamp_index (get_index s) (len steps)) s) ;;;
   current_index <- gets (fun w => get_index (STATE w)) ;;
   if (len steps <=? current_index)%Z then ret NextAllDone
   else
     task <- item steps current_index ;;
     ensure_completed_tasks ;;;
     update_STATE (fun s =>
       set_completed_tasks ({[current_index]} ∪ get_completed_tasks s) s) ;;;
     update_STATE (fun s => set_index (get_index s + 1) s) ;;;
     s <- gets STATE ;;
     save_state s ;;;
     ret (mk current_index (Py.first_line task))) w =
  (if (len steps <=? clamp_index (get_index (STATE w)) (len steps))%Z
   then (inr NextAllDone,
         World (TASKS_PATH w) (RULES_PATH w)
           (set_index (clamp_index (get_index (STATE w)) (len steps)) (STATE w))
           (STATE_PATH w))
   else match steps !! Z.to_nat (clamp_index (get_index (STATE w)) (len steps)) with
        | Some task =>
            (inr (mk (clamp_index (get_index (STATE w)) (len steps))
                    (Py.first_line task)),
             let s' :=
               State (Some (clamp_index (get_index (STATE w)) (len steps) + 1)%Z)
                 (Some ({[clamp_index (get_index (STATE w)) (len steps)]}
                        ∪ get_completed_tasks (STATE w)))
                 (completed_hashes (STATE w)) (task_hashes (STATE w)) in
             World (TASKS_PATH w) (RULES_PATH w) s' (Some s'))
        | None =>
            (inl IndexError,
             World (TASKS_PATH w) (RULES_PATH w)
               (set_index (clamp_index (get_index (STATE w)) (len steps)) (STATE w))
               (STATE_PATH w))
        end).
Proof.
  pose proof (clamp_index_range (get_index (STATE w)) (len steps)
                (len_nonneg steps)) as [Hn _].
  rewrite bind_run. unfold update_STATE at 1. rewrite bind_run. unfold gets at 1.
  cbn [STATE]. unfold get_index at 1 3. cbn [set_index index default from_option].
  unfold id.
  set (n := clamp_index (get_index (STATE w)) (len steps)) in *.
  destruct (len steps <=? n)%Z; [done|].
  rewrite bind_run, item_nonneg by done.
  destruct (steps !! Z.to_nat n) as [task|]; [|done].
  destruct w as [tp rp [i ct ch th] sp]. by destruct ct.
Qed.

End Navigator.

(** X7.  With the rules included, the line shown for the current task is
    the first line of the safety preamble, whatever the task and the user
    rules are: [tasks_peek_with_rules] and [tasks_next_with_rules] never show
    the task's own first line. *)
Theorem with_rules_shows_preamble (w : world) (steps : list Py.str) (b : bool) :
  eval load_tasks_raw w = inr steps ->
  (get_index (STATE w) < len steps)%Z ->
  eval tasks_peek_with_rules w =
    inr (CurrentTaskWithRules (clamp_index (get_index (STATE w)) (len steps))
           (Py.first_line base_rules)) ∧
  eval (tasks_next_with_rules b) w =
    inr (AdvancedWithRules (clamp_index (get_index (STATE w)) (len steps))
           (Py.first_line base_rules)).
Proof.
  intros Hsteps Hidx.
  pose proof (load_tasks_eq w) as Hl. rewrite Hsteps in Hl.
  set (rules := base_rules ++ _) in Hl.
  set (annotated := map (fun task => rules ++ Py.NL :: Py.NL :: task) steps) in Hl.
  assert (len annotated = len steps) as Hlen
    by (unfold len, annotated; by rewrite length_map).
  pose proof (clamp_index_range (get_index (STATE w)) (len steps)
                (len_nonneg steps)) as [Hn0 _].
  assert (clamp_index (get_index (STATE w)) (len steps) < len steps)%Z as Hn.
  { apply clamp_index_below; [|done].
    by apply (len_positive w), Hsteps. }
  set (n := clamp_index (get_index (STATE w)) (len steps)) in *.
  destruct (lookup_lt_is_Some_2 steps (Z.to_nat n)) as [task Htask];
    [unfold len in Hn; lia|].
  assert (annotated !! Z.to_nat n = Some (rules ++ Py.NL :: Py.NL :: task)) as Ha.
  { unfold annotated.
    match goal with
    | |- map ?f steps !! _ = _ => change (map f steps) with (f <$> steps)
    end.
    rewrite list_lookup_fmap. unfold Py.str in *. by rewrite Htask. }
  unfold eval, tasks_peek_with_rules, tasks_next_with_rules. split.
  - rewrite bind_run, Hl, (peek_body_run CurrentTaskWithRules annotated w).
    unfold Py.str in *. rewrite Hlen.
    fold n. destruct (Z.leb_spec (len steps) n); [lia|].
    cbn [fst]. rewrite Ha. unfold rules. by rewrite first_line_with_rules.
  - rewrite bind_run, Hl, (next_body_run AdvancedWithRules annotated w).
    unfold Py.str in *. rewrite Hlen.
    fold n. destruct (Z.leb_spec (len steps) n); [lia|].
    rewrite Ha. cbn [fst]. unfold rules. by rewrite first_line_with_rules.
Qed.

Lemma with_rules_shows_preamble_witness :
  eval tasks_peek_with_rules (world_of three_tasks default_state) =
    inr (CurrentTaskWithRules (clamp_index 0 (len [Py.lit "a"; Py.lit "b"; Py.lit "c"]))
           (Py.first_line base_rules)) ∧
  eval (tasks_next_with_rules true) (world_of three_tasks default_state) =
    inr (AdvancedWithRules (clamp_index 0 (len [Py.lit "a"; Py.lit "b"; Py.lit "c"]))
           (Py.first_line base_rules)).
Proof.
  apply (with_rules_shows_preamble (world_of three_tasks default_state)
           [Py.lit "a"; Py.lit "b"; Py.lit "c"] true).
  - vm_compute. reflexivity.
  - vm_compute. reflexivity.
Defined.

(** X9.  When the task file can be read, [tasks_goto] never fails: it stores
    the requested position clamped into [0, N] as the index, saves the state,
    and changes nothing else; a position already in [0, N] is stored as
    given. *)
Theorem tasks_goto_clamps (w : world) (steps : list Py.str) (idx : Z) :
  eval load_tasks_raw w = inr steps ->
  tasks_goto idx w =
    (inr (PointerMoved (clamp_index idx (len steps))),
     World (TASKS_PATH w) (RULES_PATH w)
       (set_index (clamp_index idx (len steps)) (STATE w))
       (Some (set_index (clamp_index idx (len steps)) (STATE w)))) ∧
  (0 <= get_index (STATE (exec (tasks_goto idx) w)) <= len steps)%Z ∧
  ((0 <= idx <= len steps)%Z ->
   get_index (STATE (exec (tasks_goto idx) w)) = idx).
Proof.
  intros Hsteps.
  assert (tasks_goto idx w =
    (inr (PointerMoved (clamp_index idx (len steps))),
     World (TASKS_PATH w) (RULES_PATH w)
       (set_index (clamp_index idx (len steps)) (STATE w))
       (Some (set_index (clamp_index idx (len steps)) (STATE w))))) as E.
  { unfold tasks_goto. by rewrite bind_run, load_tasks_raw_run, Hsteps. }
  split; [exact E|]. unfold exec. rewrite E. cbn [snd STATE].
  unfold get_index. cbn [set_index index default from_option]. unfold id.
  split; [apply clamp_index_range, len_nonneg|]. apply clamp_index_fixed.
Qed.

Lemma tasks_goto_clamps_witness :
  (0 <= get_index (STATE (exec (tasks_goto 99) (world_of three_tasks default_state)))
     <= len [Py.lit "a"; Py.lit "b"; Py.lit "c"])%Z.
Proof.
  apply (proj1 (proj2 (tasks_goto_clamps (world_of three_tasks default_state)
           [Py.lit "a"; Py.lit "b"; Py.lit "c"] 99%Z ltac:(vm_compute; reflexivity)))).
Defined.

(** X10.  When the task file can be read, [tasks_peek] clamps the index in
    memory and writes nothing: the completion sets and the state file are as
    before.  It answers that all is done exactly when the clamped index is N
    and otherwise shows the task at the clamped index; peeking again changes
    nothing more. *)
Theorem tasks_peek_reads_only (w : world) (steps : list Py.str) :
  eval load_tasks_raw w = inr steps ->
  exec tasks_peek w =
    World (TASKS_PATH w) (RULES_PATH w)
      (set_index (clamp_index (get_index (STATE w)) (len steps)) (STATE w))
      (STATE_PATH w) ∧
  (eval tasks_peek w = inr AllDone ↔ (len steps <= get_index (STATE w))%Z) ∧
  (∀ task,
     steps !! Z.to_nat (clamp_index (get_index (STATE w)) (len steps)) = Some task ->
     eval tasks_peek w =
       inr (CurrentTask (clamp_index (get_index (STATE w)) (len steps))
              (Py.first_line task))) ∧
  tasks_peek (exec tasks_peek w) = (eval tasks_peek w, exec tasks_peek w).
Proof.
  intros Hsteps.
  assert (∀ w', eval load_tasks_raw w' = inr steps ->
    tasks_peek w' =
      (if (len steps <=? clamp_index (get_index (STATE w')) (len steps))%Z
       then inr AllDone
       else match steps !! Z.to_nat (clamp_index (get_index (STATE w')) (len steps)) with
            | Some task =>
                inr (CurrentTask (clamp_index (get_index (STATE w')) (len steps))
                       (Py.first_line task))
            | None => inl IndexError
            end,
       World (TASKS_PATH w') (RULES_PATH w')
         (set_index (clamp_index (get_index (STATE w')) (len steps)) (STATE w'))
         (STATE_PATH w'))) as Hrun.
  { intros w' H'. unfold tasks_peek.
    rewrite bind_run, load_tasks_raw_run, H'.
    apply (peek_body_run CurrentTask). }
  pose proof (len_positive w steps Hsteps) as Hpos.
  pose proof (clamp_index_range (get_index (STATE w)) (len steps)
                (len_nonneg steps)) as Hn.
  pose proof (clamp_index_at_end (get_index (STATE w)) (len steps) Hpos) as Hend.
  unfold exec, eval. rewrite (Hrun w Hsteps).
  rewrite Hrun by (rewrite <- Hsteps; by apply load_tasks_raw_same_file).
  cbn [TASKS_PATH RULES_PATH STATE STATE_PATH fst snd].
  rewrite !get_index_set_index.
  set (n := clamp_index (get_index (STATE w)) (len steps)) in *.
  rewrite (clamp_index_fixed n) by done.
  split; [done|]. split; [|split; [|done]].
  - destruct (Z.leb_spec (len steps) n) as [H|H].
    + split; [intros _; by apply Hend|done].
    + destruct (lookup_lt_is_Some_2 steps (Z.to_nat n)) as [task ->];
        [unfold len in *; lia|].
      split; [done|]. intros Hge. apply Hend in Hge. lia.
  - intros task Htask. rewrite Htask.
    destruct (Z.leb_spec (len steps) n) as [H|H].
    + apply lookup_lt_Some in Htask. unfold len, Py.str in *. lia.
    + done.
Qed.

Lemma tasks_peek_reads_only_witness :
  eval tasks_peek (world_of three_tasks (State (Some 9%Z) None None None)) = inr AllDone.
Proof.
  apply (proj1 (proj2 (tasks_peek_reads_only
           (world_of three_tasks (State (Some 9%Z) None None None))
           [Py.lit "a"; Py.lit "b"; Py.lit "c"] ltac:(vm_compute; reflexivity)))).
  vm_compute. discriminate.
Defined.

Section Advance.

Lemma tasks_next_run (b : bool) (w : world) (steps : list Py.str) :
  eval load_tasks_raw w = inr steps ->
  tasks_next b w =
    (if (len steps <=? clamp_index (get_index (STATE w)) (len steps))%Z
     then (inr NextAllDone,
           World (TASKS_PATH w) (RULES_PATH w)
             (set_index (clamp_index (get_index (STATE w)) (len steps)) (STATE w))
             (STATE_PATH w))
     else match steps !! Z.to_nat (clamp_index (get_index (STATE w)) (len steps)) with
          | Some task =>
              (inr (Advanced (clamp_index (get_index (STATE w)) (len steps))
                      (Py.first_line task)),
               let s' :=
                 State (Some (clamp_index (get_index (STATE w)) (len steps) + 1)%Z)
                   (Some ({[clamp_index (get_index (STATE w)) (len steps)]}
                          ∪ get_completed_tasks (STATE w)))
                   (completed_hashes (STATE w)) (task_hashes (STATE w)) in
               World (TASKS_PATH w) (RULES_PATH w) s' (Some s'))
          | None =>
              (inl IndexError,
               World (TASKS_PATH w) (RULES_PATH w)
                 (set_index (clamp_index (get_index (STATE w)) (len steps)) (STATE w))
                 (STATE_PATH w))
          end).
Proof.
  intros H. unfold tasks_next. rewrite bind_run, load_tasks_raw_run, H.
  apply (next_body_run Advanced).
Qed.

Lemma tasks_next_in_range (b : bool) (w : world) (steps : list Py.str) :
  eval load_tasks_raw w = inr steps ->
  (0 <= get_index (STATE w) < len steps)%Z ->
  ∃ task,
    steps !! Z.to_nat (get_index (STATE w)) = Some task ∧
    tasks_next b w =
      (inr (Advanced (get_index (STATE w)) (Py.first_line task)),
       let s' :=
         State (Some (get_index (STATE w) + 1)%Z)
           (Some ({[get_index (STATE w)]} ∪ get_completed_tasks (STATE w)))
           (completed_hashes (STATE w)) (task_hashes (STATE w)) in
       World (TASKS_PATH w) (RULES_PATH w) s' (Some s')).
Proof.
  intros Hsteps Hidx. rewrite (tasks_next_run b w steps Hsteps).
  rewrite clamp_index_fixed by lia.
  destruct (Z.leb_spec (len steps) (get_index (STATE w))); [lia|].
  destruct (lookup_lt_is_Some_2 steps (Z.to_nat (get_index (STATE w))))
    as [task Htask]; [unfold len in Hidx; lia|].
  exists task. by rewrite Htask.
Qed.

Lemma range_snoc (a : Z) (k : nat) :
  range a (a + Z.of_nat (S k)) = range a (a + Z.of_nat k) ++ [(a + Z.of_nat k)%Z].
Proof.
  unfold range.
  replace (Z.to_nat (a + Z.of_nat (S k) - a)) with (S k) by lia.
  replace (Z.to_nat (a + Z.of_nat k - a)) with k by lia.
  by rewrite seq_S, map_app.
Qed.

Lemma mark_all_snoc (ps : list Z) (p : Z) (s : state) :
  mark_all (ps ++ [p]) s =
    set_completed_tasks ({[p]} ∪ get_completed_tasks (mark_all ps s)) (mark_all ps s).
Proof. unfold mark_all. by rewrite fold_left_app. Qed.

(** [k + 1] advances from an index in range, as long as tasks remain. *)
Lemma tasks_next_iter (b : bool) (w : world) (steps : list Py.str) (k : nat) :
  eval load_tasks_raw w = inr steps ->
  (0 <= get_index (STATE w))%Z ->
  (get_index (STATE w) + Z.of_nat (S k) <= len steps)%Z ->
  Nat.iter (S k) (exec (tasks_next b)) w =
    let s' :=
      set_index (get_index (STATE w) + Z.of_nat (S k))
        (mark_all (range (get_index (STATE w)) (get_index (STATE w) + Z.of_nat (S k)))
           (with_completed_tasks (STATE w))) in
    World (TASKS_PATH w) (RULES_PATH w) s' (Some s').
Proof.
  intros Hsteps Hidx. induction k as [|k IH]; intros Hk.
  - change (Nat.iter 1 (exec (tasks_next b)) w) with (exec (tasks_next b) w).
    unfold exec.
    destruct (tasks_next_in_range b w steps Hsteps) as (task & _ & ->); [lia|].
    cbn [snd]. rewrite (range_snoc _ 0). cbv zeta.
    replace (range (get_index (STATE w)) (get_index (STATE w) + Z.of_nat 0))
      with (@nil Z) by (unfold range; by replace (Z.to_nat _) with 0%nat by lia).
    rewrite Z.add_0_r.
    destruct w as [tp rp [i [ct|] ch th] sp]; reflexivity.
  - change (Nat.iter (S (S k)) (exec (tasks_next b)) w)
      with (exec (tasks_next b) (Nat.iter (S k) (exec (tasks_next b)) w)).
    rewrite IH by lia. cbv zeta.
    set (m := mark_all _ (with_completed_tasks (STATE w))).
    set (j := (get_index (STATE w) + Z.of_nat (S k))%Z).
    unfold exec.
    destruct (tasks_next_in_range b
                (World (TASKS_PATH w) (RULES_PATH w) (set_index j m)
                   (Some (set_index j m))) steps) as (task & _ & ->).
    { rewrite <- Hsteps. by apply load_tasks_raw_same_file. }
    { cbn [STATE]. rewrite get_index_set_index. lia. }
    cbn [snd TASKS_PATH RULES_PATH STATE]. rewrite get_index_set_index.
    rewrite (range_snoc _ (S k)), mark_all_snoc. fold j. fold m.
    replace (get_index (STATE w) + Z.of_nat (S (S k)))%Z with (j + 1)%Z by lia.
    reflexivity.
Qed.

End Advance.

(** X11.  With a task left (index below N), [tasks_next] returns the task at
    the clamped index n, adds n to [completed_tasks], stores n + 1 as the
    index and saves; [completed_hashes] and [task_hashes] are not touched, so
    no fingerprint is recorded for the task. *)
Theorem tasks_next_advances (b : bool) (w : world) (steps : list Py.str) :
  eval load_tasks_raw w = inr steps ->
  (get_index (STATE w) < len steps)%Z ->
  ∃ task,
    steps !! Z.to_nat (clamp_index (get_index (STATE w)) (len steps)) = Some task ∧
    tasks_next b w =
      (inr (Advanced (clamp_index (get_index (STATE w)) (len steps))
              (Py.first_line task)),
       let s' :=
         State (Some (clamp_index (get_index (STATE w)) (len steps) + 1)%Z)
           (Some ({[clamp_index (get_index (STATE w)) (len steps)]}
                  ∪ get_completed_tasks (STATE w)))
           (completed_hashes (STATE w)) (task_hashes (STATE w)) in
       World (TASKS_PATH w) (RULES_PATH w) s' (Some s')) ∧
    (0 < get_index (STATE (exec (tasks_next b) w)) <= len steps)%Z.
Proof.
  intros Hsteps Hidx. pose proof (len_positive w steps Hsteps) as Hpos.
  pose proof (clamp_index_below _ _ Hpos Hidx) as Hn.
  pose proof (clamp_index_range (get_index (STATE w)) (len steps)
                (len_nonneg steps)) as [Hn0 _].
  unfold exec. rewrite (tasks_next_run b w steps Hsteps).
  set (n := clamp_index (get_index (STATE w)) (len steps)) in *.
  destruct (Z.leb_spec (len steps) n); [lia|].
  destruct (lookup_lt_is_Some_2 steps (Z.to_nat n)) as [task Htask];
    [unfold len in Hn; lia|].
  exists task. rewrite Htask. split; [done|]. split; [done|].
  cbn [snd STATE]. unfold get_index. cbn [index default from_option]. unfold id. lia.
Qed.

Lemma tasks_next_advances_witness :
  ∃ task,
    [Py.lit "a"; Py.lit "b"; Py.lit "c"]
      !! Z.to_nat (clamp_index (get_index (STATE (world_of three_tasks default_state)))
                     (len [Py.lit "a"; Py.lit "b"; Py.lit "c"])) = Some task ∧
    eval (tasks_next true) (world_of three_tasks default_state) =
      inr (Advanced 0 (Py.first_line task)).
Proof.
  destruct (tasks_next_advances true (world_of three_tasks default_state)
              [Py.lit "a"; Py.lit "b"; Py.lit "c"]
              ltac:(vm_compute; reflexivity) ltac:(vm_compute; reflexivity))
    as (task & H1 & H2 & _).
  exists task. split; [exact H1|]. unfold eval. rewrite H2. reflexivity.
Defined.

(** X12.  With no task left (index at or past N), [tasks_next] answers that
    all is done, marks nothing complete, sets the index to N in memory and
    does not save; doing it again changes nothing more. *)
Theorem tasks_next_at_end (b : bool) (w : world) (steps : list Py.str) :
  eval load_tasks_raw w = inr steps ->
  (len steps <= get_index (STATE w))%Z ->
  tasks_next b w =
    (inr NextAllDone,
     World (TASKS_PATH w) (RULES_PATH w) (set_index (len steps) (STATE w))
       (STATE_PATH w)) ∧
  tasks_next b (exec (tasks_next b) w) = (inr NextAllDone, exec (tasks_next b) w).
Proof.
  intros Hsteps Hidx. pose proof (len_nonneg steps) as Hpos.
  assert (∀ w', eval load_tasks_raw w' = inr steps ->
            (len steps <= get_index (STATE w'))%Z ->
            tasks_next b w' =
              (inr NextAllDone,
               World (TASKS_PATH w') (RULES_PATH w')
                 (set_index (len steps) (STATE w')) (STATE_PATH w'))) as Hrun.
  { intros w' H' Hi. rewrite (tasks_next_run b w' steps H').
    assert (clamp_index (get_index (STATE w')) (len steps) = len steps) as ->.
    { unfold clamp_index. destruct (Z.ltb_spec (get_index (STATE w')) 0); [lia|].
      destruct (Z.ltb_spec (len steps) (get_index (STATE w'))); lia. }
    by rewrite Z.leb_refl. }
  split; [by apply Hrun|]. unfold exec. rewrite (Hrun w Hsteps Hidx). cbn [snd].
  rewrite Hrun.
  - reflexivity.
  - rewrite <- Hsteps. by apply load_tasks_raw_same_file.
  - cbn [STATE]. rewrite get_index_set_index. lia.
Qed.

Lemma tasks_next_at_end_witness :
  tasks_next true (world_of one_task all_done) =
    (inr NextAllDone,
     World (Text one_task) Absent (set_index (len [Py.lit "A"]) all_done) None).
Proof.
  apply (proj1 (tasks_next_at_end true (world_of one_task all_done) [Py.lit "A"]
                  ltac:(vm_compute; reflexivity) ltac:(vm_compute; discriminate))).
Defined.

(** X13.  A batch advance is a batch of single advances: from an index in
    range, [tasks_auto] with a count k of at most the remaining tasks leaves
    exactly the world that k calls of [tasks_next] leave. *)
Theorem tasks_auto_is_repeated_next (b : bool) (w : world) (steps : list Py.str)
    (k : nat) :
  eval load_tasks_raw w = inr steps ->
  (0 <= get_index (STATE w))%Z ->
  (get_index (STATE w) + Z.of_nat (S k) <= len steps)%Z ->
  exec (tasks_auto (Some (Z.of_nat (S k)))) w =
    Nat.iter (S k) (exec (tasks_next b)) w.
Proof.
  intros Hsteps Hidx Hk. rewrite (tasks_next_iter b w steps k) by done.
  destruct (tasks_auto_run w steps (Some (Z.of_nat (S k))) Hsteps) as (_ & _ & Hgood).
  assert (resolved_count (Some (Z.of_nat (S k))) (len steps - get_index (STATE w))
          = Z.of_nat (S k)) as Hc.
  { unfold resolved_count. cbn [default from_option]. unfold id. lia. }
  rewrite Hc in Hgood. destruct Hgood as (msg & Hrun & _); [lia..|].
  unfold exec. by rewrite Hrun.
Qed.

Lemma tasks_auto_is_repeated_next_witness :
  exec (tasks_auto (Some (Z.of_nat 2))) (world_of three_tasks default_state) =
    Nat.iter 2 (exec (tasks_next true)) (world_of three_tasks default_state).
Proof.
  apply (tasks_auto_is_repeated_next true (world_of three_tasks default_state)
           [Py.lit "a"; Py.lit "b"; Py.lit "c"] 1).
  - vm_compute. reflexivity.
  - vm_compute. discriminate.
  - vm_compute. discriminate.
Defined.

(** X14.  [tasks_start] never changes the in-memory state or the state
    file.  When the task file can be read it shows the task at the clamped
    position, and it raises [IndexError] exactly for the positions at or past
    the end of the list. *)
Theorem tasks_start_reads_only (w : world) (steps : list Py.str) (idx : Z) :
  eval load_tasks_raw w = inr steps ->
  exec (tasks_start idx) w = w ∧
  (eval (tasks_start idx) w = inl IndexError ↔ (len steps <= idx)%Z) ∧
  (∀ task,
     steps !! Z.to_nat (clamp_index idx (len steps)) = Some task ->
     eval (tasks_start idx) w =
       inr (TaskInfo (clamp_index idx (len steps)) (Py.first_line task))).
Proof.
  intros Hsteps. pose proof (len_positive w steps Hsteps) as Hpos.
  pose proof (clamp_index_range idx (len steps) (len_nonneg steps)) as Hn.
  pose proof (clamp_index_at_end idx (len steps) Hpos) as Hend.
  unfold exec, eval, tasks_start.
  rewrite bind_run, load_tasks_raw_run, Hsteps, bind_run, item_nonneg by lia.
  set (n := clamp_index idx (len steps)) in *.
  destruct (steps !! Z.to_nat n) as [task|] eqn:E; cbn [fst snd].
  - split; [done|]. split; [|by intros ? [= ->]].
    split; [done|]. intros Hge. apply Hend in Hge.
    apply lookup_lt_Some in E. unfold len, Py.str in *. lia.
  - split; [done|]. split; [|done]. split; [intros _|done].
    apply Hend. apply lookup_ge_None in E. unfold len, Py.str in *. lia.
Qed.

Lemma tasks_start_reads_only_witness :
  eval (tasks_start 3) (world_of three_tasks default_state) = inl IndexError.
Proof.
  apply (proj1 (proj2 (tasks_start_reads_only (world_of three_tasks default_state)
           [Py.lit "a"; Py.lit "b"; Py.lit "c"] 3%Z ltac:(vm_compute; reflexivity)))).
  vm_compute. discriminate.
Defined.

(** X15.  [tasks_reset] needs no task file: it always stores index 0 and
    saves, touching nothing else.  Because a readable task file always has at
    least one block, peeking after a reset shows the block at position 0 and
    never the all-done answer. *)
Theorem tasks_reset_then_peek (w : world) :
  tasks_reset w =
    (inr PointerReset,
     World (TASKS_PATH w) (RULES_PATH w) (set_index 0 (STATE w))
       (Some (set_index 0 (STATE w)))) ∧
  (∀ steps, eval load_tasks_raw w = inr steps ->
     ∃ task, steps !! 0%nat = Some task ∧
       eval tasks_peek (exec tasks_reset w) =
         inr (CurrentTask 0 (Py.first_line task))).
Proof.
  split; [reflexivity|]. intros steps Hsteps.
  pose proof (len_positive w steps Hsteps) as Hpos.
  destruct steps as [|task steps]; [by apply load_tasks_raw_nonempty in Hsteps|].
  exists task. split; [done|].
  change (exec tasks_reset w) with
    (World (TASKS_PATH w) (RULES_PATH w) (set_index 0 (STATE w))
       (Some (set_index 0 (STATE w)))).
  unfold eval at 1, tasks_peek.
  rewrite bind_run, load_tasks_raw_run.
  rewrite (load_tasks_raw_same_file w) by done. rewrite Hsteps.
  rewrite (peek_body_run CurrentTask). cbn [STATE fst].
  rewrite get_index_set_index, clamp_index_fixed by lia.
  destruct (Z.leb_spec (len (task :: steps)) 0); [lia|]. done.
Qed.

Lemma tasks_reset_then_peek_witness :
  ∃ task, [Py.lit "a"; Py.lit "b"; Py.lit "c"] !! 0%nat = Some task ∧
    eval tasks_peek (exec tasks_reset (world_of three_tasks all_done)) =
      inr (CurrentTask 0 (Py.first_line task)).
Proof.
  apply (proj2 (tasks_reset_then_peek (world_of three_tasks all_done))).
  vm_compute. reflexivity.
Defined.

Section History.

(** Reconciliation reads the index, [completed_hashes] and the task file,
    nothing else. *)
Lemma reconciled_same (s1 s2 : state) (hashes : gmap Z string) :
  index s1 = index s2 ->
  get_completed_hashes s1 = get_completed_hashes s2 ->
  reconciled s1 hashes = reconciled s2 hashes.
Proof.
  intros Hi Hh. unfold reconciled, get_index. by rewrite Hi, Hh.
Qed.

Lemma reconciled_sets_same (s1 s2 : state) (hashes : gmap Z string) :
  get_completed_hashes s1 = get_completed_hashes s2 ->
  completed_tasks (reconciled s1 hashes) = completed_tasks (reconciled s2 hashes) ∧
  completed_hashes (reconciled s1 hashes) = completed_hashes (reconciled s2 hashes) ∧
  task_hashes (reconciled s1 hashes) = task_hashes (reconciled s2 hashes).
Proof. intros Hh. unfold reconciled. cbn. by rewrite Hh. Qed.

End History.

(** X16.  [tasks_reset_status] empties [completed_tasks] and saves, leaving
    the index and the fingerprint history alone; when the state has no
    [completed_tasks] key it changes and saves nothing.  The next
    reconciliation undoes the reset: it leaves the same world as a
    reconciliation without the reset. *)
Theorem tasks_reset_status_undone_by_sync (w : world) :
  (completed_tasks (STATE w) = None ->
   tasks_reset_status w = (inr NothingToReset, w)) ∧
  (is_Some (completed_tasks (STATE w)) ->
   tasks_reset_status w =
     (inr StatusReset,
      World (TASKS_PATH w) (RULES_PATH w) (set_completed_tasks ∅ (STATE w))
        (Some (set_completed_tasks ∅ (STATE w))))) ∧
  exec sync_tasks (exec tasks_reset_status w) = exec sync_tasks w.
Proof.
  assert (tasks_reset_status w =
          match completed_tasks (STATE w) with
          | Some _ =>
              (inr StatusReset,
               World (TASKS_PATH w) (RULES_PATH w) (set_completed_tasks ∅ (STATE w))
                 (Some (set_completed_tasks ∅ (STATE w))))
          | None => (inr NothingToReset, w)
          end) as E.
  { unfold tasks_reset_status. rewrite bind_run. unfold gets at 1.
    by destruct (completed_tasks (STATE w)). }
  unfold exec at 2. rewrite E.
  destruct (completed_tasks (STATE w)) as [done|].
  - split; [done|]. split; [done|]. cbn [snd]. rewrite !sync_tasks_exec.
    cbn [TASKS_PATH RULES_PATH STATE].
    by rewrite (reconciled_same (set_completed_tasks ∅ (STATE w)) (STATE w)).
  - split; [done|]. split; [by intros [? ?]|done].
Qed.

Lemma tasks_reset_status_undone_by_sync_witness :
  tasks_reset_status (world_of one_task default_state) =
    (inr NothingToReset, world_of one_task default_state).
Proof.
  apply (proj1 (tasks_reset_status_undone_by_sync (world_of one_task default_state))).
  reflexivity.
Defined.

(** X17.  A completion made by [tasks_next] does not survive reconciliation:
    [tasks_next] records no fingerprint, so reconciling after it gives the
    same [completed_tasks], [completed_hashes] and [task_hashes] as
    reconciling without it. *)
Theorem tasks_next_forgotten_by_sync (b : bool) (w : world) :
  completed_tasks (STATE (exec sync_tasks (exec (tasks_next b) w))) =
    completed_tasks (STATE (exec sync_tasks w)) ∧
  completed_hashes (STATE (exec sync_tasks (exec (tasks_next b) w))) =
    completed_hashes (STATE (exec sync_tasks w)) ∧
  task_hashes (STATE (exec sync_tasks (exec (tasks_next b) w))) =
    task_hashes (STATE (exec sync_tasks w)).
Proof.
  assert (TASKS_PATH (exec (tasks_next b) w) = TASKS_PATH w ∧
          completed_hashes (STATE (exec (tasks_next b) w)) =
            completed_hashes (STATE w)) as [Hf Hh].
  { unfold exec. destruct (eval load_tasks_raw w) as [e|steps] eqn:E.
    - unfold tasks_next. by rewrite bind_run, load_tasks_raw_run, E.
    - rewrite (tasks_next_run b w steps E).
      destruct (_ <=? _)%Z; [done|]. by destruct (steps !! _). }
  rewrite !sync_tasks_exec. cbn [STATE]. rewrite Hf.
  apply reconciled_sets_same. unfold get_completed_hashes. by rewrite Hh.
Qed.

(** X18.  Completion follows content, not position: after [tasks_complete]
    on a task and any edit of the task file, reconciliation marks a position
    complete exactly when the fingerprint now at that position is the
    completed task's or was already in the history. *)
Theorem completion_follows_content (w : world) (steps : list Py.str) (idx : Z)
    (task : Py.str) (f : file) (k : Z) :
  eval load_tasks_raw w = inr steps ->
  steps !! Z.to_nat (clamp_index idx (len steps)) = Some task ->
  k ∈ get_completed_tasks
        (STATE (exec sync_tasks (edit_tasks f (exec (tasks_complete idx) w)))) ↔
  ∃ h, current_hashes f !! k = Some h ∧
       (h = generate_task_hash task ∨ h ∈ get_completed_hashes (STATE w)).
Proof.
  intros Hsteps Htask. unfold exec at 2.
  rewrite (tasks_complete_in_range w steps idx task Hsteps Htask). cbn [snd].
  rewrite sync_tasks_exec. unfold edit_tasks. cbn [TASKS_PATH STATE].
  rewrite reconciled_completed_tasks. unfold get_completed_hashes at 1.
  cbn [completed_hashes default from_option]. unfold id.
  split; intros (h & Hh & Hin); exists h; (split; [done|]).
  - apply elem_of_union in Hin as [Hin|Hin]; [left|by right].
    by apply elem_of_singleton in Hin.
  - apply elem_of_union. destruct Hin as [->|Hin]; [left|by right].
    by apply elem_of_singleton.
Qed.

Lemma completion_follows_content_witness :
  0%Z ∈ get_completed_tasks
        (STATE (exec sync_tasks
                  (edit_tasks (Text one_task)
                     (exec (tasks_complete 1)
                        (world_of comment_A_B default_state))))) ↔
  ∃ h, current_hashes (Text one_task) !! 0%Z = Some h ∧
       (h = generate_task_hash (Py.lit "Task A") ∨
        h ∈ get_completed_hashes (STATE (world_of comment_A_B default_state))).
Proof.
  apply (completion_follows_content (world_of comment_A_B default_state)
           [Py.lit "# comment"; Py.lit "Task A"; Py.lit "Task B"] 1%Z
           (Py.lit "Task A") (Text one_task) 0%Z).
  - vm_compute. reflexivity.
  - reflexivity.
Defined.

(** X19.  Completing the same position twice is the same as completing it
    once: the second call returns the same answer and leaves the in-memory
    state and the state file as the first call left them. *)
Theorem tasks_complete_idempotent (w : world) (steps : list Py.str) (idx : Z)
    (task : Py.str) :
  eval load_tasks_raw w = inr steps ->
  steps !! Z.to_nat (clamp_index idx (len steps)) = Some task ->
  tasks_complete idx (exec (tasks_complete idx) w) =
    (eval (tasks_complete idx) w, exec (tasks_complete idx) w).
Proof.
  intros Hsteps Htask. unfold exec, eval.
  rewrite (tasks_complete_in_range w steps idx task Hsteps Htask). cbn [fst snd].
  rewrite (tasks_complete_in_range _ steps idx task);
    [|rewrite <- Hsteps; by apply load_tasks_raw_same_file|done].
  cbn [TASKS_PATH RULES_PATH STATE index].
  unfold get_completed_tasks, get_completed_hashes, get_task_hashes.
  cbn [completed_tasks completed_hashes task_hashes default from_option].
  unfold id.
  replace ({[clamp_index idx (len steps)]}
           ∪ ({[clamp_index idx (len steps)]} ∪ default ∅ (completed_tasks (STATE w))))
    with ({[clamp_index idx (len steps)]} ∪ default ∅ (completed_tasks (STATE w)))
    by (apply set_eq; intros x; rewrite !elem_of_union; tauto).
  replace ({[generate_task_hash task]}
           ∪ ({[generate_task_hash task]} ∪ default ∅ (completed_hashes (STATE w))))
    with ({[generate_task_hash task]} ∪ default ∅ (completed_hashes (STATE w)))
    by (apply set_eq; intros x; rewrite !elem_of_union; tauto).
  by rewrite insert_insert_eq.
Qed.

Lemma tasks_complete_idempotent_witness :
  tasks_complete 0 (exec (tasks_complete 0) (world_of one_task default_state)) =
    (eval (tasks_complete 0) (world_of one_task default_state),
     exec (tasks_complete 0) (world_of one_task default_state)).
Proof.
  apply (tasks_complete_idempotent (world_of one_task default_state)
           [Py.lit "A"] 0%Z (Py.lit "A")).
  - vm_compute. reflexivity.
  - reflexivity.
Defined.

(** X20.  Reconciling while the task file is missing or unreadable does not
    raise: [sync_tasks] reports the failure, but by then it has emptied
    [completed_tasks], [completed_hashes] and [task_hashes], set a
    non-negative index to 0, and saved that state, so the whole completion
    history is lost. *)
Theorem sync_tasks_without_file (w : world) :
  TASKS_PATH w = Absent ∨ TASKS_PATH w = Unreadable ->
  (∃ e, eval sync_tasks w = inr (SyncFailed e) ∧ eval load_tasks_raw w = inl e) ∧
  STATE (exec sync_tasks w) =
    State (if (0 <=? get_index (STATE w))%Z then Some 0%Z else index (STATE w))
      (Some ∅) (Some ∅) (Some ∅) ∧
  STATE_PATH (exec sync_tasks w) = Some (STATE (exec sync_tasks w)).
Proof.
  intros Hfile.
  assert (current_hashes (TASKS_PATH w) = ∅) as Hh by (by destruct Hfile as [-> | ->]).
  split.
  - unfold eval at 1, sync_tasks, try_except.
    rewrite bind_run, sync_state_with_tasks_run, bind_run.
    unfold put_STATE, update_STATE at 1. rewrite bind_run, load_tasks_raw_run.
    rewrite (load_tasks_raw_same_file w) by done.
    destruct (eval load_tasks_raw w) as [e|steps] eqn:E; [by exists e|].
    rewrite load_tasks_raw_eval in E. by destruct Hfile as [H|H]; rewrite H in E.
  - rewrite sync_tasks_exec. cbn [STATE STATE_PATH]. split; [|done].
    rewrite Hh. unfold reconciled, sync_loop.
    by rewrite map_to_list_empty, map_size_empty.
Qed.

Lemma sync_tasks_without_file_witness :
  STATE (exec sync_tasks (World Absent Absent stale_history None)) =
    State (if (0 <=? get_index stale_history)%Z then Some 0%Z else index stale_history)
      (Some ∅) (Some ∅) (Some ∅).
Proof.
  apply (proj1 (proj2 (sync_tasks_without_file
                         (World Absent Absent stale_history None)
                         (or_introl eq_refl)))).
Defined.

(** ** Views *)

Section Views.

Lemma comment_tests_agree (b : Py.str) :
  well_formed_block b ->
  Py.startswith_hash (Py.first_line b) = Py.startswith_hash b ∧
  is_comment b = Py.startswith_hash b.
Proof.
  intros Hb.
  destruct (well_formed_block_head b Hb) as (c & l & ls & -> & Hc & Hnl & Hbl).
  pose proof (block_lines_strip _ Hbl) as Hstrip.
  pose proof Hbl as [Hstored Hfirst].
  assert (Py.first_line (Py.join_nl ((c :: l) :: ls)) = c :: l) as ->.
  { unfold Py.first_line. rewrite split_nl_join; [|done|].
    - apply Forall_cons in Hstored as [(_ & _ & Hr) _].
      unfold Py.strip. by rewrite Hr.
    - eapply Forall_impl; [exact Hstored|]. by intros x (? & _). }
  unfold is_comment. rewrite Hstrip. split; [by destruct ls|done].
Qed.

Lemma rows_positions (done : gset Z) (steps : list Py.str) (k : nat) :
  Forall well_formed_block steps ->
  map (fun r : table_row => r.1)
    (omap (fun '(i, task) =>
             let first_line := Py.first_line task in
             if Py.startswith_hash first_line then None
             else Some (Z.of_nat i, bool_decide (Z.of_nat i ∈ done), first_line))
          (imap (fun i t => ((k + i)%nat, t)) steps)) =
    map (fun i => (i, bool_decide (i ∈ done))) (task_positions (Z.of_nat k) steps) ∧
  map (fun r : table_row => r.1)
    (omap (fun '(i, task) =>
             if is_comment task then None
             else Some (Z.of_nat i, bool_decide (Z.of_nat i ∈ done), task))
          (imap (fun i t => ((k + i)%nat, t)) steps)) =
    map (fun i => (i, bool_decide (i ∈ done))) (task_positions (Z.of_nat k) steps).
Proof.
  intros Hall. revert k. induction Hall as [|t steps Ht _ IH]; intros k; [done|].
  destruct (comment_tests_agree t Ht) as [H1 H2].
  rewrite imap_cons.
  rewrite (imap_ext _ (fun i t => ((S k + i)%nat, t)))
    by (intros; cbn; f_equal; lia).
  destruct (IH (S k)) as [IH1 IH2].
  replace (Z.of_nat (S k)) with (Z.of_nat k + 1)%Z in IH1, IH2 by lia.
  cbn [omap list_omap task_positions]. rewrite Nat.add_0_r, H1, H2.
  destruct (Py.startswith_hash t); cbn [map fst]; split;
    first [ exact IH1 | exact IH2 | f_equal; exact IH1 | f_equal; exact IH2 ].
Qed.

Lemma task_positions_length (i : Z) (steps : list Py.str) :
  List.length (task_positions i steps) =
    List.length (List.filter (fun t => negb (Py.startswith_hash t)) steps).
Proof.
  revert i. induction steps as [|t steps IH]; intros i; [done|].
  cbn [task_positions List.filter].
  destruct (Py.startswith_hash t); cbn [negb List.length]; by rewrite IH.
Qed.

Lemma filter_comment_tests (steps : list Py.str) :
  Forall well_formed_block steps ->
  List.filter (fun t => negb (is_comment t)) steps =
    List.filter (fun t => negb (Py.startswith_hash t)) steps.
Proof.
  induction 1 as [|t steps Ht _ IH]; [done|]. cbn [List.filter].
  destruct (comment_tests_agree t Ht) as [_ ->]. by rewrite IH.
Qed.

End Views.

(** X21.  The task table and the detailed listing read without changing
    anything, and they show the same tasks: one row for every block that does
    not start with the comment marker, numbered by its position among all
    blocks of the raw parse (comment blocks take numbers but get no row),
    with the same completed mark.  The number of rows and the reported total
    equal the number of tasks reconciliation counts. *)
Theorem task_views_agree (w : world) (raw : Py.str) (steps : list Py.str) :
  TASKS_PATH w = Text raw ->
  eval load_tasks_raw w = inr steps ->
  ∃ rows total status detailed,
    show_task_table w = (inr rows, w) ∧
    explain_tasks_detailed w = (inr (total, status, detailed), w) ∧
    map (fun r : table_row => r.1) rows =
      map (fun i => (i, bool_decide (i ∈ get_completed_tasks (STATE w))))
        (task_positions 0 steps) ∧
    map (fun r : table_row => r.1) detailed = map (fun r : table_row => r.1) rows ∧
    List.length rows = size (current_hashes (TASKS_PATH w)) ∧
    total = Z.of_nat (size (current_hashes (TASKS_PATH w))).
Proof.
  intros Hfile Hsteps.
  pose proof (load_tasks_raw_blocks raw w steps Hfile Hsteps) as Hblocks.
  pose proof (blocks_well_formed raw) as Hall. rewrite Hblocks in Hall.
  destruct (rows_positions (get_completed_tasks (STATE w)) steps 0 Hall) as [H1 H2].
  assert (size (current_hashes (TASKS_PATH w)) =
          List.length (task_positions 0 steps)) as Hsize.
  { rewrite Hfile. cbn [current_hashes].
    rewrite hashed_blocks_size, Hblocks, task_positions_length.
    unfold task_fingerprints. by rewrite length_map. }
  unfold show_task_table, explain_tasks_detailed.
  rewrite !bind_run, load_tasks_raw_run, Hsteps, !bind_run. unfold gets at 1 2.
  eexists _, _, _, _. split; [reflexivity|]. split; [reflexivity|].
  change (imap pair steps) with (imap (fun i t => ((0 + i)%nat, t)) steps).
  split; [exact H1|]. split; [etrans; [exact H2|symmetry; exact H1]|]. split.
  - rewrite Hsize. pose proof (f_equal (@List.length _) H1) as HL.
    rewrite !length_map in HL. exact HL.
  - rewrite Hsize, task_positions_length, filter_comment_tests by done. done.
Qed.

Lemma task_views_agree_witness :
  ∃ rows total status detailed,
    show_task_table (world_of comment_A_B default_state) =
      (inr rows, world_of comment_A_B default_state) ∧
    explain_tasks_detailed (world_of comment_A_B default_state) =
      (inr (total, status, detailed), world_of comment_A_B default_state) ∧
    map (fun r : table_row => r.1) rows =
      map (fun i => (i, bool_decide
                          (i ∈ get_completed_tasks
                                 (STATE (world_of comment_A_B default_state)))))
        (task_positions 0 [Py.lit "# comment"; Py.lit "Task A"; Py.lit "Task B"]) ∧
    map (fun r : table_row => r.1) detailed = map (fun r : table_row => r.1) rows ∧
    List.length rows =
      size (current_hashes (TASKS_PATH (world_of comment_A_B default_state))) ∧
    total =
      Z.of_nat (size (current_hashes (TASKS_PATH (world_of comment_A_B default_state)))).
Proof.
  apply (task_views_agree (world_of comment_A_B default_state) comment_A_B
           [Py.lit "# comment"; Py.lit "Task A"; Py.lit "Task B"]).
  - reflexivity.
  - vm_compute. reflexivity.
Defined.
